(** * API-Testing-Agent: the matching engine, the request builder, the
      classifier cache and the report, embedded from the Python sources

    Sources embedded here:
    - [agents/api_testing_agent.py]   (class [APITestingAgent])
    - [agents/document_classifier_agent.py] (class [DocumentClassifierAgent])
    - [agents/workflow.py]            (the report loop of [run_workflow])

    Conventions of the embedding.
    - A Python [str] is a [string].  [str.lower] follows the case tables
      of Unicode, so it is a function the agent is given ([str_lower] of
      the class [External]); [Py.lower], which maps [A-Z] to [a-z], is
      what it does on ASCII text and stands for it in the concrete runs.
    - A Python [dict] is an association list in insertion order
      ([dict_get], [dict_set]); a Python [set] of paths is a duplicate-free
      list ([set_add], [set_mem] of [ListSet]).
    - A dictionary key that may be absent is an [option] field of a record;
      [x.get(k, d)] is a [match] with the default in the [None] branch.
    - Everything outside the process (the file system, the HTTP server, the
      Gemini service, [random.choice]) is a field of the class [External],
      threaded through an explicit world state. *)

From Stdlib Require Import String Ascii List Bool Arith ZArith Lia ListSet QArith.
Import ListNotations.
Local Open Scope string_scope.
Local Open Scope nat_scope.

Set Implicit Arguments.
Set Warnings "-register-all".

(** ** Python string primitives *)

Module Py.

(** [s.startswith(p)] *)
Fixpoint startswith (p s : string) : bool :=
  match p, s with
  | EmptyString, _ => true
  | String a p', String b s' => Ascii.eqb a b && startswith p' s'
  | String _ _, EmptyString => false
  end.

(** [a in b] on two strings: [a] occurs in [b] as a contiguous block. *)
Fixpoint str_in (a b : string) : bool :=
  startswith a b ||
  match b with
  | EmptyString => false
  | String _ b' => str_in a b'
  end.

(** [s.endswith(p)] *)
Fixpoint endswith (p s : string) : bool :=
  String.eqb p s ||
  match s with
  | EmptyString => false
  | String _ s' => endswith p s'
  end.

Definition lower_ascii (c : ascii) : ascii :=
  let n := nat_of_ascii c in
  if (65 <=? n) && (n <=? 90) then ascii_of_nat (n + 32) else c.

(** [s.lower()] on ASCII text: the [str_lower] of the scripted world. *)
Fixpoint lower (s : string) : string :=
  match s with
  | EmptyString => EmptyString
  | String c s' => String (lower_ascii c) (lower s')
  end.

(** [s[:n]] *)
Fixpoint take (n : nat) (s : string) : string :=
  match n, s with
  | S n', String c s' => String c (take n' s')
  | _, _ => EmptyString
  end.

(** The characters [str.strip()] removes: space, [\t \n \v \f \r] and the
    separators [0x1c .. 0x1f]. *)
Definition is_space (c : ascii) : bool :=
  let n := nat_of_ascii c in
  (n =? 32) || ((9 <=? n) && (n <=? 13)) || ((28 <=? n) && (n <=? 31)).

Fixpoint lstrip (s : string) : string :=
  match s with
  | String c s' => if is_space c then lstrip s' else s
  | EmptyString => EmptyString
  end.

Fixpoint rstrip (s : string) : string :=
  match s with
  | EmptyString => EmptyString
  | String c s' =>
      match rstrip s' with
      | EmptyString => if is_space c then EmptyString else String c EmptyString
      | r => String c r
      end
  end.

(** [s.strip()] *)
Definition strip (s : string) : string := rstrip (lstrip s).

Fixpoint has_char (c : ascii) (s : string) : bool :=
  match s with
  | EmptyString => false
  | String d s' => Ascii.eqb c d || has_char c s'
  end.

(** [os.path.basename(p)]: what follows the last ['/']. *)
Fixpoint basename (p : string) : string :=
  match p with
  | EmptyString => EmptyString
  | String _ p' => if has_char "/" p then basename p' else p
  end.

(** [os.path.join(root, name)] for a relative [name]. *)
Definition path_join (root name : string) : string :=
  if String.eqb root "" then name
  else if endswith "/" root then root ++ name
  else root ++ "/" ++ name.

(** The part of [s] from its last ['.'] on; [None] when it has no dot. *)
Fixpoint from_last_dot (s : string) : option string :=
  match s with
  | EmptyString => None
  | String c s' =>
      match from_last_dot s' with
      | Some e => Some e
      | None => if Ascii.eqb c "." then Some s else None
      end
  end.

Fixpoint skip_dots (s : string) : string :=
  match s with
  | String c s' => if Ascii.eqb c "." then skip_dots s' else s
  | EmptyString => EmptyString
  end.

(** [os.path.splitext(p)[1]]: the extension starts at the last dot of the
    base name, leading dots of the base name not counted. *)
Definition splitext_ext (p : string) : string :=
  match from_last_dot (skip_dots (basename p)) with
  | Some e => e
  | None => EmptyString
  end.

(** Truth value of a string: [if s:] holds for the non-empty ones. *)
Definition truthy (s : string) : bool :=
  match s with EmptyString => false | String _ _ => true end.

End Py.

(** ** Python dictionaries with string keys, in insertion order *)

Section Dict.
Context {V : Type}.

Definition dict := list (string * V).

(** [d.get(k)] *)
Fixpoint dict_get (d : dict) (k : string) : option V :=
  match d with
  | [] => None
  | (k', v) :: d' => if String.eqb k k' then Some v else dict_get d' k
  end.

(** [d[k] = v]: an existing key keeps its place, a new one goes last. *)
Fixpoint dict_set (d : dict) (k : string) (v : V) : dict :=
  match d with
  | [] => [(k, v)]
  | (k', v') :: d' =>
      if String.eqb k k' then (k, v) :: d' else (k', v') :: dict_set d' k v
  end.

(** [list(d.keys())] *)
Definition dict_keys (d : dict) : list string := map fst d.

(** [k in d] *)
Definition dict_has (d : dict) (k : string) : bool :=
  existsb (String.eqb k) (dict_keys d).

End Dict.

Arguments dict : clear implicits.

(** ** Variable substitution: [APITestingAgent._replace_variables] *)

(** The longest prefix of [s] made of characters other than ['}'], and
    what follows it: the greedy [[^}]+] of the pattern. *)
Fixpoint name_run (s : string) : string * string :=
  match s with
  | EmptyString => (EmptyString, EmptyString)
  | String c s' =>
      if Ascii.eqb c "}" then (EmptyString, s)
      else let (n, r) := name_run s' in (String c n, r)
  end.

(** The pattern [{{([^}]+)}}] tried at the head of [s]: the captured name
    and the text after the match.  Backtracking into the name cannot help,
    because the character after a shorter name is not ['}']. *)
Definition match_placeholder (s : string) : option (string * string) :=
  match s with
  | String "{" (String "{" s1) =>
      match name_run s1 with
      | (String c n, String "}" (String "}" rest)) => Some (String c n, rest)
      | _ => None
      end
  | _ => None
  end.

(** [match.group(0)] for a match whose group 1 is [name]. *)
Definition group0 (name : string) : string := "{{" ++ name ++ "}}".

(** The inner function [replacer]. *)
Definition replacer (env_vars : dict string) (var_name : string) : string :=
  match dict_get env_vars var_name with
  | Some v => v
  | None => group0 var_name
  end.

(** [re.sub]: leftmost matches, not overlapping, scanned left to right;
    [fuel] bounds the number of steps and each step consumes a character. *)
Fixpoint re_sub (fuel : nat) (env_vars : dict string) (s : string) : string :=
  match fuel with
  | 0 => s
  | S fuel' =>
      match match_placeholder s with
      | Some (name, rest) => replacer env_vars name ++ re_sub fuel' env_vars rest
      | None =>
          match s with
          | EmptyString => EmptyString
          | String c s' => String c (re_sub fuel' env_vars s')
          end
      end
  end.

Definition _replace_variables (env_vars : dict string) (text : string) : string :=
  re_sub (String.length text) env_vars text.

(** ** The Postman collection, as far as the agent reads it *)

(** [request["url"]]: an object with a [raw] member, or any other value,
    which the agent turns into text with [str]. *)
Inductive url_spec :=
| UrlDict (raw : option string)
| UrlStr (s : string).

Record header_item := {
  h_key : option string;
  h_value : option string
}.

Record form_field := {
  f_key : option string;
  f_type : option string;
  f_value : option string
}.

Record body_spec := {
  b_mode : option string;
  b_formdata : option (list form_field)
}.

Record request_spec := {
  r_method : option string;
  r_url : option url_spec;
  r_header : option (list header_item);
  r_body : option body_spec
}.

(** A node of the collection: an endpoint when it has [request], a folder
    when it has [item]; it may have both or neither. *)
Inductive node :=
| Node (name : option string) (request : option request_spec)
       (item : option (list node)).

Definition node_name (n : node) : option string :=
  match n with Node nm _ _ => nm end.
Definition node_request (n : node) : option request_spec :=
  match n with Node _ r _ => r end.
Definition node_item (n : node) : option (list node) :=
  match n with Node _ _ i => i end.

(** [api.get("name", "unnamed")] *)
Definition api_name_of (api : node) : string :=
  match node_name api with Some n => n | None => "unnamed" end.

(** The inner function [search] of [_find_all_apis]: the nodes with a
    request, depth first, children in listed order. *)
Fixpoint search (n : node) : list node :=
  match n with
  | Node _ req item =>
      (match req with Some _ => [n] | None => [] end) ++
      (match item with Some l => flat_map search l | None => [] end)
  end.

Definition _find_all_apis (collection : node) : list node := search collection.

(** [mode in ("file", "binary")] *)
Definition mode_is_raw (mode : option string) : bool :=
  match mode with
  | Some m => String.eqb m "file" || String.eqb m "binary"
  | None => false
  end.

Definition mode_is_formdata (mode : option string) : bool :=
  match mode with Some m => String.eqb m "formdata" | None => false end.

Definition field_is_file (f : form_field) : bool :=
  match f_type f with Some t => String.eqb t "file" | None => false end.

(** [body.get("formdata", [])] *)
Definition formdata_of (b : body_spec) : list form_field :=
  match b_formdata b with Some l => l | None => [] end.

(** [request_data.get("body", {})] *)
Definition body_of (r : request_spec) : body_spec :=
  match r_body r with
  | Some b => b
  | None => {| b_mode := None; b_formdata := None |}
  end.

Definition _needs_file_upload (api : node) : bool :=
  match node_request api with
  | None => false
  | Some r =>
      let body := body_of r in
      let mode := b_mode body in
      if mode_is_raw mode then true
      else if mode_is_formdata mode then existsb field_is_file (formdata_of body)
      else false
  end.

(** ** Outcomes of operations that may raise *)

Inductive io (A : Type) :=
| Ok (a : A)
| Raised (msg : string).

Arguments Ok {A} a.
Arguments Raised {A} msg.

(** ** Requests, responses and the world outside *)

(** One entry of the [files=] list given to [requests.request]. *)
Inductive form_part :=
| FilePart (key : option string) (filename content mime_type : string)
| TextPart (key : option string) (value : string).

(** The dictionary [{"files": ..., "content": ...}] of [_build_request]. *)
Record body_data := {
  files : option (list form_part);
  content : option string
}.

(** The three ways [_test_one_api] calls [requests.request]. *)
Inductive payload :=
| WithFiles (l : list form_part)
| WithData (c : string)
| NoBody.

Record response := {
  resp_status_code : Z;
  resp_text : string;
  resp_headers : dict string
}.

(** A classification record [{"document_type": ..., "confidence": ...}].
    The oracle may answer an object with other members; the agent stores
    them with the record and never reads them: [other_members] holds
    each with the JSON text of its value. *)
Record doc_info := {
  document_type : option string;
  confidence : option Q;
  other_members : dict string
}.

(** [{"document_type": "failed", "confidence": 0.0}] *)
Definition failed_info : doc_info :=
  {| document_type := Some "failed"; confidence := Some 0%Q;
     other_members := [] |}.

(** [if classification:] holds for a dictionary with at least one
    member, whatever its name. *)
Definition info_truthy (i : doc_info) : bool :=
  match document_type i, confidence i, other_members i with
  | None, None, [] => false
  | _, _, _ => true
  end.

(** What the agent cannot compute by itself.  [World] is the state of
    everything outside the process; an operation that may change it
    returns the next state.  [json_loads_answer] and [json_loads_info] are
    [json.loads] read at the two schemas of the oracle contracts ([None]
    when it raises).  [str_lower] is [str.lower]; of its table the model
    knows only that it has nothing to change in the empty text. *)
Class External (World : Type) := {
  read_file : World -> string -> io string;
  guess_type : string -> option string;
  requests_request :
    World -> string -> string -> dict string -> payload -> io response * World;
  random_index : World -> list string -> nat * World;
  diagnose_content :
    World -> string -> option Z -> string -> io string * World;
  upload_file : World -> string -> io string * World;
  classify_content : World -> string -> string -> io string * World;
  json_loads_answer : string -> option (dict (option string));
  json_loads_info : string -> option doc_info;
  str_lower : string -> string;
  str_lower_empty : str_lower EmptyString = EmptyString
}.

(** ** Finding the JSON text in an oracle answer *)

(** The suffix of [s] that starts at its first [c]. *)
Fixpoint from_first (c : ascii) (s : string) : option string :=
  match s with
  | EmptyString => None
  | String d s' => if Ascii.eqb d c then Some s else from_first c s'
  end.

(** The longest prefix of [s] that ends in [c]. *)
Fixpoint upto_last (c : ascii) (s : string) : option string :=
  match s with
  | EmptyString => None
  | String d s' =>
      match upto_last c s' with
      | Some p => Some (String d p)
      | None => if Ascii.eqb d c then Some (String d EmptyString) else None
      end
  end.

(** [re.search(r"{[\s\S]*}", text)] and [group(0)] of the match: the
    pattern is greedy, so the match runs from the first ['{'] to the last
    ['}'] behind it. *)
Definition json_span (text : string) : option string :=
  match from_first "{" text with
  | None => None
  | Some s => upto_last "}" s
  end.

(** What [_ask_gemini_what_went_wrong] reads off the answer of the
    oracle, from [re.search] to [result.get]; [loads] is [json.loads], and
    an exception it raises ends in the [except] branch, which returns
    [None]. *)
Definition extract_required_type
           (loads : string -> option (dict (option string)))
           (text : string) : option string :=
  match json_span text with
  | None => None
  | Some json_match =>
      match loads json_match with
      | None => None
      | Some answer =>
          match dict_get answer "required_document_type" with
          | Some v => v
          | None => None
          end
      end
  end.

(** ** The result dictionary of one attempt *)

(** The keys of the dictionary [_test_one_api] returns.  The branch that
    catches an exception leaves out [method], [url], [document_type],
    [status_code] and [response_headers]; [res_document_type] is
    [Some None] when the key is there with the value [None].  The last two
    keys are added by [test_apis] after a retry that succeeded. *)
Record result := {
  res_api_name : string;
  res_method : option string;
  res_url : option string;
  res_file_used : string;
  res_document_type : option (option string);
  res_success : bool;
  res_status_code : option Z;
  res_error_message : string;
  res_response_headers : option (dict string);
  res_retry_success : option bool;
  res_correct_document : option string
}.

(** [result["retry_success"] = True; result["correct_document"] = doc] *)
Definition mark_retry (r : result) (doc : string) : result :=
  {| res_api_name := res_api_name r;
     res_method := res_method r;
     res_url := res_url r;
     res_file_used := res_file_used r;
     res_document_type := res_document_type r;
     res_success := res_success r;
     res_status_code := res_status_code r;
     res_error_message := res_error_message r;
     res_response_headers := res_response_headers r;
     res_retry_success := Some true;
     res_correct_document := Some doc |}.

(** [response.status_code in [200, 201, 204]] *)
Definition status_ok (code : Z) : bool :=
  (code =? 200)%Z || (code =? 201)%Z || (code =? 204)%Z.

(** ** The request builder and one attempt *)

Section Agent.
Context {World : Type} {ext : External World}.

(** The two attributes of the agent set by [set_documents] and
    [set_environment]. *)
Variable doc_map : dict doc_info.
Variable env_vars : dict string.

(** The fallback table of [_build_request] for the MIME type. *)
Definition mime_types : dict string :=
  [(".pdf", "application/pdf"); (".jpg", "image/jpeg");
   (".jpeg", "image/jpeg"); (".png", "image/png")].

(** [mime_types.get(ext, 'application/octet-stream')] on the lowercased
    extension of the path. *)
Definition fallback_mime_type (file_path : string) : string :=
  match dict_get mime_types (str_lower (Py.splitext_ext file_path)) with
  | Some t => t
  | None => "application/octet-stream"
  end.

(** The MIME type: what [mimetypes.guess_type] says, else the table. *)
Definition mime_type_of (file_path : string) : string :=
  match guess_type file_path with
  | Some m => if Py.truthy m then m else fallback_mime_type file_path
  | None => fallback_mime_type file_path
  end.

(** The loop over [request_data.get("header", [])]. *)
Fixpoint build_headers (hs : list header_item) (headers : dict string)
  : dict string :=
  match hs with
  | [] => headers
  | h :: hs' =>
      match h_key h with
      | Some k =>
          if Py.truthy k then
            build_headers hs'
              (dict_set headers k
                 (_replace_variables env_vars
                    (match h_value h with Some v => v | None => "" end)))
          else build_headers hs' headers
      | None => build_headers hs' headers
      end
  end.

(** The loop over [body.get("formdata", [])]; a file field opens and
    reads the document, which may raise. *)
Fixpoint build_fields (w : World) (file_path : string)
         (fs : list form_field) : io (list form_part) :=
  match fs with
  | [] => Ok []
  | f :: fs' =>
      if field_is_file f then
        match read_file w file_path with
        | Raised e => Raised e
        | Ok file_content =>
            match build_fields w file_path fs' with
            | Raised e => Raised e
            | Ok rest =>
                Ok (FilePart (f_key f) (Py.basename file_path) file_content
                      (mime_type_of file_path) :: rest)
            end
        end
      else
        match build_fields w file_path fs' with
        | Raised e => Raised e
        | Ok rest =>
            Ok (TextPart (f_key f)
                  (_replace_variables env_vars
                     (match f_value f with Some v => v | None => "" end))
                :: rest)
        end
  end.

(** [str(url_data)] when [url_data] is no dictionary. *)
Definition url_text (u : option url_spec) : string :=
  match u with
  | Some (UrlDict raw) => match raw with Some r => r | None => "" end
  | Some (UrlStr s) => s
  | None => "None"
  end.

Definition _build_request (w : World) (api_config : node) (file_path : string)
  : io (string * string * dict string * body_data) :=
  match node_request api_config with
  | None => Raised "'request'"
  | Some request_data =>
      let method := match r_method request_data with
                    | Some m => m
                    | None => "POST"
                    end in
      let url := _replace_variables env_vars (url_text (r_url request_data)) in
      let headers :=
        build_headers
          (match r_header request_data with Some l => l | None => [] end) [] in
      let body := body_of request_data in
      let mode := b_mode body in
      if mode_is_formdata mode then
        match build_fields w file_path (formdata_of body) with
        | Raised e => Raised e
        | Ok fields =>
            Ok (method, url, headers,
                {| files := Some fields; content := None |})
        end
      else if mode_is_raw mode then
        match read_file w file_path with
        | Raised e => Raised e
        | Ok content_data =>
            Ok (method, url, headers,
                {| files := None; content := Some content_data |})
        end
      else
        Ok (method, url, headers, {| files := None; content := None |})
  end.

(** Which of the three calls of [requests.request] is made. *)
Definition payload_of (b : body_data) : payload :=
  match files b with
  | Some (p :: l) => WithFiles (p :: l)
  | _ =>
      match content b with
      | Some c => if Py.truthy c then WithData c else NoBody
      | None => NoBody
      end
  end.

(** The dictionary built in the [except] branch of [_test_one_api]. *)
Definition exception_result (api_config : node) (file_path e : string)
  : result :=
  {| res_api_name := api_name_of api_config;
     res_method := None;
     res_url := None;
     res_file_used := file_path;
     res_document_type := None;
     res_success := false;
     res_status_code := None;
     res_error_message := e;
     res_response_headers := None;
     res_retry_success := None;
     res_correct_document := None |}.

(** The dictionary built when the transport call returned. *)
Definition response_result (api_config : node) (method url file_path : string)
           (info : doc_info) (resp : response) : result :=
  let success := status_ok (resp_status_code resp) in
  {| res_api_name := api_name_of api_config;
     res_method := Some method;
     res_url := Some url;
     res_file_used := file_path;
     res_document_type := Some (document_type info);
     res_success := success;
     res_status_code := Some (resp_status_code resp);
     res_error_message := if success then "" else resp_text resp;
     res_response_headers := Some (resp_headers resp);
     res_retry_success := None;
     res_correct_document := None |}.

Definition _test_one_api (w : World) (api_config : node) (file_path : string)
           (info : doc_info) : result * World :=
  match _build_request w api_config file_path with
  | Raised e => (exception_result api_config file_path e, w)
  | Ok (method, url, headers, body) =>
      match requests_request w method url headers (payload_of body) with
      | (Raised e, w') => (exception_result api_config file_path e, w')
      | (Ok resp, w') =>
          (response_result api_config method url file_path info resp, w')
      end
  end.

(** ** Diagnosis of a failure and the search for a better document *)

Definition _ask_gemini_what_went_wrong (w : World) (error_result : result)
  : option string * World :=
  match read_file w "prompts/normalize_error.md" with
  | Raised _ => (None, w)
  | Ok instructions =>
      match diagnose_content w instructions (res_status_code error_result)
              (Py.take 1000 (res_error_message error_result)) with
      | (Raised _, w') => (None, w')
      | (Ok text, w') =>
          (extract_required_type json_loads_answer (Py.strip text), w')
      end
  end.

(** [info.get("document_type", "").lower()] *)
Definition classified_type (info : doc_info) : string :=
  str_lower (match document_type info with Some t => t | None => "" end).

(** The test of the loop in [_find_document_by_type]. *)
Definition type_matches (doc_type_lower : string) (info : doc_info) : bool :=
  Py.str_in doc_type_lower (classified_type info)
  || Py.str_in (classified_type info) doc_type_lower.

Definition _find_document_by_type (doc_type : string) : option string :=
  let doc_type_lower := str_lower doc_type in
  match find (fun kv => type_matches doc_type_lower (snd kv)) doc_map with
  | Some (file_path, _) => Some file_path
  | None => None
  end.

(** ** The loop of [test_apis] *)

(** What one iteration of the loop did: the set it found, every call of
    [_test_one_api] it made (document and result, in order) and what it
    appended to [results].  The journal is bookkeeping of the model; the
    program keeps [results], [used_documents] and nothing else. *)
Record journal_entry := {
  j_api : node;
  j_used_before : set string;
  j_calls : list (string * result);
  j_appended : list result
}.

Record loop_state := {
  results : list result;
  used_documents : set string;
  world : World;
  journal : list journal_entry
}.

(** The end of an iteration: [results.append] (or [continue]). *)
Definition leave (st : loop_state) (api : node)
           (calls : list (string * result)) (appended : list result)
           (used : set string) (w : World) : loop_state :=
  {| results := results st ++ appended;
     used_documents := used;
     world := w;
     journal := journal st ++
                [{| j_api := api; j_used_before := used_documents st;
                    j_calls := calls; j_appended := appended |}] |}.

(** [path not in used_documents] *)
Definition unused (used : set string) (kv : string * doc_info) : bool :=
  negb (set_mem string_dec (fst kv) used).

(** [d[k]] for a key [k] taken from [d] itself; the default stands for a
    [KeyError] that cannot happen (lemmas [find_document_is_key] and
    [choice_has_item]). *)
Definition dict_item (d : dict doc_info) (k : string) : doc_info :=
  match dict_get d k with
  | Some v => v
  | None => {| document_type := None; confidence := None;
               other_members := [] |}
  end.

(** [random.choice(keys)] *)
Definition random_choice (w : World) (keys : list string) : string * World :=
  let (i, w') := random_index w keys in
  (nth (i mod length keys) keys "", w').

Definition loop_body (st : loop_state) (api : node) : loop_state :=
  let used := used_documents st in
  let available_docs := filter (unused used) doc_map in
  match available_docs with
  | [] => leave st api [] [] used (world st)
  | _ :: _ =>
      let (random_file, w1) := random_choice (world st) (dict_keys available_docs) in
      let info := dict_item available_docs random_file in
      let (result, w2) := _test_one_api w1 api random_file info in
      if res_success result then
        leave st api [(random_file, result)] [result]
              (set_add string_dec random_file used) w2
      else
        let (required_type, w3) := _ask_gemini_what_went_wrong w2 result in
        match required_type with
        | Some t =>
            if Py.truthy t then
              match _find_document_by_type t with
              | Some matching_doc =>
                  if Py.truthy matching_doc then
                    let (retry_result, w4) :=
                      _test_one_api w3 api matching_doc
                                    (dict_item doc_map matching_doc) in
                    if res_success retry_result then
                      leave st api
                            [(random_file, result); (matching_doc, retry_result)]
                            [mark_retry result matching_doc]
                            (set_add string_dec matching_doc used) w4
                    else
                      leave st api
                            [(random_file, result); (matching_doc, retry_result)]
                            [result] used w4
                  else leave st api [(random_file, result)] [result] used w3
              | None => leave st api [(random_file, result)] [result] used w3
              end
            else leave st api [(random_file, result)] [result] used w3
        | None => leave st api [(random_file, result)] [result] used w3
        end
  end.

(** [test_apis] from the loaded collection on: the endpoints that need an
    upload, then the loop from empty [results] and [used_documents]. *)
Definition upload_apis (collection : node) : list node :=
  filter _needs_file_upload (_find_all_apis collection).

Definition run_loop (apis : list node) (w : World) : loop_state :=
  fold_left loop_body apis
    {| results := []; used_documents := empty_set string;
       world := w; journal := [] |}.

Definition test_apis (collection : node) (w : World) : list result * World :=
  let st := run_loop (upload_apis collection) w in
  (results st, world st).

(** ** The report loop of [run_workflow] *)

(** An item of [correctFiles]; [docType] is [None] for JSON [null]. *)
Record correct_file := {
  fileName : string;
  docType : option string
}.

(** An item of [failedFiles]. *)
Record failed_file := {
  nameOfFile : string;
  failedDocType : option string;
  errorMessage : string
}.

Record api_entry := {
  apiName : string;
  method : string;
  url : string;
  correctFiles : list correct_file;
  failedFiles : list failed_file
}.

(** [result.get("document_type", "unknown")] *)
Definition result_doc_type (r : result) : option string :=
  match res_document_type r with
  | Some v => v
  | None => Some "unknown"
  end.

(** The entry after the check of the initial result. *)
Definition initial_entry (r : result) : api_entry :=
  {| apiName := res_api_name r;
     method := match res_method r with Some m => m | None => "POST" end;
     url := match res_url r with Some u => u | None => "" end;
     correctFiles :=
       if res_success r then
         [{| fileName := Py.basename (res_file_used r);
             docType := result_doc_type r |}]
       else [];
     failedFiles :=
       if res_success r then []
       else
         [{| nameOfFile := Py.basename (res_file_used r);
             failedDocType := result_doc_type r;
             errorMessage := Py.take 200 (res_error_message r) |}] |}.

(** [result.get("retry_success") and result.get("correct_document")]:
    the document when both are there and true. *)
Definition retry_document (r : result) : option string :=
  match res_retry_success r, res_correct_document r with
  | Some true, Some d => if Py.truthy d then Some d else None
  | _, _ => None
  end.

(** One iteration of the report loop; [doc_map[correct_doc]] raises
    [KeyError] for a document that is not in the map. *)
Definition report_entry (r : result) : io api_entry :=
  let e := initial_entry r in
  match retry_document r with
  | None => Ok e
  | Some correct_doc =>
      match dict_get doc_map correct_doc with
      | None => Raised correct_doc
      | Some info =>
          Ok {| apiName := apiName e;
                method := method e;
                url := url e;
                correctFiles :=
                  correctFiles e ++
                  [{| fileName := Py.basename correct_doc;
                      docType := match document_type info with
                                 | Some t => Some t
                                 | None => Some "unknown"
                                 end |}];
                failedFiles := failedFiles e |}
      end
  end.

Fixpoint generate_report (rs : list result) : io (list api_entry) :=
  match rs with
  | [] => Ok []
  | r :: rs' =>
      match report_entry r with
      | Raised e => Raised e
      | Ok entry =>
          match generate_report rs' with
          | Raised e => Raised e
          | Ok report => Ok (entry :: report)
          end
      end
  end.

(** ** The classifier: [DocumentClassifierAgent] *)

(** [_upload_file]: [cache] is the attribute [self.cache], from path to
    the handle of the uploaded file. *)
Definition _upload_file (cache : dict string) (w : World) (file_path : string)
  : io string * dict string * World :=
  match dict_get cache file_path with
  | Some file_obj => (Ok file_obj, cache, w)
  | None =>
      match upload_file w file_path with
      | (Raised e, w') => (Raised e, cache, w')
      | (Ok file_obj, w') =>
          (Ok file_obj, dict_set cache file_path file_obj, w')
      end
  end.

Definition _ask_gemini_to_classify (cache : dict string) (w : World)
           (file_path : string) : option doc_info * dict string * World :=
  match _upload_file cache w file_path with
  | (Raised _, cache', w1) => (None, cache', w1)
  | (Ok file_obj, cache', w1) =>
      match read_file w1 "prompts/classify_document.md" with
      | Raised _ => (None, cache', w1)
      | Ok instructions =>
          match classify_content w1 instructions file_obj with
          | (Raised _, w2) => (None, cache', w2)
          | (Ok text, w2) =>
              match json_span (Py.strip text) with
              | None => (None, cache', w2)
              | Some json_match => (json_loads_info json_match, cache', w2)
              end
          end
      end
  end.

(** The state of the loop over [new_files]; [c_asked] lists the paths
    given to [_ask_gemini_to_classify], which is bookkeeping of the
    model. *)
Record classify_state := {
  c_results : dict doc_info;
  c_cache : dict string;
  c_world : World;
  c_asked : list string
}.

Definition classify_step (st : classify_state) (file_path : string)
  : classify_state :=
  let '(classification, cache', w') :=
    _ask_gemini_to_classify (c_cache st) (c_world st) file_path in
  {| c_results :=
       dict_set (c_results st) file_path
         (match classification with
          | Some c => if info_truthy c then c else failed_info
          | None => failed_info
          end);
     c_cache := cache';
     c_world := w';
     c_asked := c_asked st ++ [file_path] |}.

(** Hidden files and markdown files are skipped. *)
Definition is_document (filename : string) : bool :=
  negb (Py.startswith "." filename) && negb (Py.endswith ".md" filename).

(** The loop over [os.walk(docs_dir)], given what the walk yields: each
    directory with its file names. *)
Definition all_files_of (walk : list (string * list string)) : list string :=
  flat_map (fun d => map (Py.path_join (fst d)) (filter is_document (snd d)))
           walk.

(** [classify_documents].  [stored] is the content of the cache file when
    one is named and exists; the returned [c_results] is also what step 4
    writes back to it. *)
Definition classify_documents (cache : dict string) (w : World)
           (stored : option (dict doc_info))
           (walk : list (string * list string)) : classify_state :=
  let results := match stored with Some r => r | None => [] end in
  let all_files := all_files_of walk in
  let new_files := filter (fun f => negb (dict_has results f)) all_files in
  fold_left classify_step new_files
    {| c_results := results; c_cache := cache; c_world := w; c_asked := [] |}.

End Agent.

(** ** [json.loads] on flat objects

    A reader for the JSON texts the concrete runs below use: one object
    whose values are strings or [null], with the escapes [json] knows
    except [\u].  On such a text it answers what [json.loads] answers, and
    like [json.loads] it refuses text after the object.  It is the
    instance of [json_loads_answer] in the concrete runs; the general
    theorems hold for every reader. *)

Module Json.

Definition dquote : ascii := ascii_of_nat 34.
Definition backslash : ascii := ascii_of_nat 92.

(** A string literal of JSON with the text [s]. *)
Definition quoted (s : string) : string :=
  String dquote (s ++ String dquote EmptyString).

Definition is_ws (c : ascii) : bool :=
  let n := nat_of_ascii c in
  (n =? 32) || (n =? 9) || (n =? 10) || (n =? 13).

Fixpoint skip_ws (s : string) : string :=
  match s with
  | String c s' => if is_ws c then skip_ws s' else s
  | EmptyString => EmptyString
  end.

Definition unescape (e : ascii) : option ascii :=
  let n := nat_of_ascii e in
  if (n =? 34) || (n =? 92) || (n =? 47) then Some e
  else if n =? 98 then Some (ascii_of_nat 8)
  else if n =? 102 then Some (ascii_of_nat 12)
  else if n =? 110 then Some (ascii_of_nat 10)
  else if n =? 114 then Some (ascii_of_nat 13)
  else if n =? 116 then Some (ascii_of_nat 9)
  else None.

(** The rest of a string literal, after its opening quote: the text it
    denotes and what follows the closing quote. *)
Fixpoint parse_string (s : string) : option (string * string) :=
  match s with
  | EmptyString => None
  | String c s' =>
      if Ascii.eqb c dquote then Some (EmptyString, s')
      else if Ascii.eqb c backslash then
        match s' with
        | EmptyString => None
        | String e s'' =>
            match unescape e, parse_string s'' with
            | Some d, Some (t, r) => Some (String d t, r)
            | _, _ => None
            end
        end
      else if nat_of_ascii c <? 32 then None
      else
        match parse_string s' with
        | Some (t, r) => Some (String c t, r)
        | None => None
        end
  end.

Fixpoint drop (n : nat) (s : string) : string :=
  match n, s with
  | S n', String _ s' => drop n' s'
  | _, _ => s
  end.

(** A value: a string literal or [null]. *)
Definition parse_value (s : string) : option (option string * string) :=
  match s with
  | String c s' =>
      if Ascii.eqb c dquote then
        match parse_string s' with
        | Some (t, r) => Some (Some t, r)
        | None => None
        end
      else if Py.startswith "null" s then Some (None, drop 4 s)
      else None
  | EmptyString => None
  end.

(** The members of an object from the opening quote of a key on, up to
    and including the closing brace; a repeated key keeps its last value. *)
Fixpoint parse_members (fuel : nat) (s : string) (acc : dict (option string))
  : option (dict (option string) * string) :=
  match fuel with
  | 0 => None
  | S fuel' =>
      match s with
      | String c s1 =>
          if Ascii.eqb c dquote then
            match parse_string s1 with
            | Some (k, s2) =>
                match skip_ws s2 with
                | String ":" s3 =>
                    match parse_value (skip_ws s3) with
                    | Some (v, s4) =>
                        match skip_ws s4 with
                        | String "," s5 =>
                            parse_members fuel' (skip_ws s5) (dict_set acc k v)
                        | String "}" s5 => Some (dict_set acc k v, s5)
                        | _ => None
                        end
                    | None => None
                    end
                | _ => None
                end
            | None => None
            end
          else None
      | EmptyString => None
      end
  end.

Definition is_empty (s : string) : bool :=
  match s with EmptyString => true | String _ _ => false end.

Definition loads (s : string) : option (dict (option string)) :=
  match skip_ws s with
  | String "{" s1 =>
      match skip_ws s1 with
      | String "}" s2 => if is_empty (skip_ws s2) then Some [] else None
      | s1' =>
          match parse_members (String.length s1') s1' [] with
          | Some (d, s2) => if is_empty (skip_ws s2) then Some d else None
          | None => None
          end
      end
  | _ => None
  end.

End Json.

(** ** The reading of the specification: the first well-formed object

    The specification has the core take the first well-formed JSON object
    found in the answer.  [spec_first_json_object] follows these words: the
    positions of the text from left to right, and at each position that
    holds ['{'] the shortest block from there that [loads] accepts. *)

Fixpoint prefixes (s : string) : list string :=
  EmptyString ::
  match s with
  | EmptyString => []
  | String c s' => map (String c) (prefixes s')
  end.

Fixpoint first_some {A B : Type} (f : A -> option B) (l : list A) : option B :=
  match l with
  | [] => None
  | a :: l' => match f a with Some b => Some b | None => first_some f l' end
  end.

Fixpoint spec_first_json_object {D : Type} (loads : string -> option D)
         (text : string) : option D :=
  match text with
  | EmptyString => None
  | String c text' =>
      match (if Ascii.eqb c "{" then first_some loads (prefixes text) else None) with
      | Some d => Some d
      | None => spec_first_json_object loads text'
      end
  end.

(** The required type the specification reads off an answer. *)
Definition spec_required_type (loads : string -> option (dict (option string)))
           (text : string) : option string :=
  match spec_first_json_object loads text with
  | Some d => match dict_get d "required_document_type" with
              | Some v => v
              | None => None
              end
  | None => None
  end.

(** ** A scripted world for concrete runs

    The files on disk, the file names the server answers 200 to (any other
    upload gets 422), the indices [random.choice] will draw and the answer
    of the diagnosis oracle are data of the world; [sw_down] makes the
    transport raise. *)

Record scripted := {
  sw_files : dict string;
  sw_accepts : list string;
  sw_picks : list nat;
  sw_answer : io string;
  sw_down : bool
}.

Definition part_accepted (accepts : list string) (p : form_part) : bool :=
  match p with
  | FilePart _ filename _ _ => existsb (String.eqb filename) accepts
  | TextPart _ _ => false
  end.

Definition scripted_server (w : scripted) (p : payload) : io response :=
  if sw_down w then Raised "Connection refused"
  else
    match p with
    | WithFiles parts =>
        if existsb (part_accepted (sw_accepts w)) parts then
          Ok {| resp_status_code := 200%Z; resp_text := "stored";
                resp_headers := [] |}
        else
          Ok {| resp_status_code := 422%Z; resp_text := "wrong document type";
                resp_headers := [] |}
    | WithData _ =>
        Ok {| resp_status_code := 201%Z; resp_text := "created";
              resp_headers := [] |}
    | NoBody =>
        Ok {| resp_status_code := 400%Z; resp_text := "no file";
              resp_headers := [] |}
    end.

Definition scripted_pick (w : scripted) : nat * scripted :=
  match sw_picks w with
  | [] => (0, w)
  | i :: rest =>
      (i, {| sw_files := sw_files w; sw_accepts := sw_accepts w;
             sw_picks := rest; sw_answer := sw_answer w;
             sw_down := sw_down w |})
  end.

#[export] Instance scripted_external : External scripted := {
  read_file w path :=
    match dict_get (sw_files w) path with
    | Some c => Ok c
    | None => Raised "No such file or directory"
    end;
  guess_type _ := None;
  requests_request w _ _ _ p := (scripted_server w p, w);
  random_index w _ := scripted_pick w;
  diagnose_content w _ _ _ := (sw_answer w, w);
  upload_file w path := (Ok path, w);
  classify_content w _ _ := (Raised "quota exceeded", w);
  json_loads_answer := Json.loads;
  json_loads_info _ := None;
  str_lower := Py.lower;
  str_lower_empty := eq_refl
}.

(** A collection with two upload endpoints, two classified documents and
    the worlds the concrete runs start from. *)

Definition upload_request : request_spec :=
  {| r_method := None;
     r_url := Some (UrlDict (Some "{{base}}/upload"));
     r_header := None;
     r_body := Some {| b_mode := Some "formdata";
                       b_formdata := Some [{| f_key := Some "file";
                                              f_type := Some "file";
                                              f_value := None |}] |} |}.

Definition endpoint_a : node := Node (Some "identity") (Some upload_request) None.
Definition endpoint_b : node := Node (Some "visa") (Some upload_request) None.
Definition collection_one : node := Node (Some "kyc") None (Some [endpoint_a]).
Definition collection_two : node :=
  Node (Some "kyc") None (Some [endpoint_a; endpoint_b]).

Definition invoice_info : doc_info :=
  {| document_type := Some "invoice"; confidence := Some (9 # 10);
     other_members := [] |}.
Definition passport_info : doc_info :=
  {| document_type := Some "passport_scan"; confidence := Some (19 # 20);
     other_members := [] |}.

Definition docs_passport_first : dict doc_info :=
  [("docs/passport_scan.png", passport_info); ("docs/invoice.pdf", invoice_info)].
Definition docs_invoice_first : dict doc_info :=
  [("docs/invoice.pdf", invoice_info); ("docs/passport_scan.png", passport_info)].

Definition demo_env : dict string := [("base", "http://x")].

Definition demo_files : dict string :=
  [("docs/passport_scan.png", "PNG"); ("docs/invoice.pdf", "PDF");
   ("prompts/normalize_error.md", "Name the document type the API wants.")].

(** The answer [{"required_document_type": "passport"}]. *)
Definition passport_answer : string :=
  "{" ++ Json.quoted "required_document_type" ++ ": " ++ Json.quoted "passport" ++ "}".

(** The same answer inside a sentence that has braces of its own. *)
Definition chatty_answer : string :=
  "The API wants " ++ passport_answer ++ " (see schema {id}).".

Definition world_of (accepts : list string) (picks : list nat) (answer : io string)
  : scripted :=
  {| sw_files := demo_files; sw_accepts := accepts; sw_picks := picks;
     sw_answer := answer; sw_down := false |}.

(** ** The environment file: the loop of [run_workflow] over
       [env_data.get("values", [])] *)

(** An entry of the environment file. *)
Record env_value := {
  v_key : option string;
  v_value : option string;
  v_enabled : option bool
}.

(** [var.get("enabled", True)] *)
Definition is_enabled (var : env_value) : bool :=
  match v_enabled var with Some b => b | None => true end.

(** The loop body [env_vars[var["key"]] = var.get("value", "")]; an
    enabled entry without [key] raises [KeyError]. *)
Fixpoint load_values (values : list env_value) (env_vars : dict string)
  : io (dict string) :=
  match values with
  | [] => Ok env_vars
  | var :: rest =>
      if is_enabled var then
        match v_key var with
        | None => Raised "'key'"
        | Some k =>
            load_values rest
              (dict_set env_vars k
                 (match v_value var with Some v => v | None => "" end))
        end
      else load_values rest env_vars
  end.

(** The dictionary given to [set_environment], from the [values] member of
    the file when it has one. *)
Definition load_environment (values : option (list env_value)) : io (dict string) :=
  load_values (match values with Some l => l | None => [] end) [].

(** The entry that decides the value of [k]: the last enabled one with
    this key. *)
Definition deciding_value (k : string) (values : list env_value)
  : option env_value :=
  find (fun var => is_enabled var
                   && match v_key var with
                      | Some k' => String.eqb k k'
                      | None => false
                      end)
       (rev values).

(** ** Relations on collections, headers and results *)

(** [n] is [c] or is below [c] through [item] lists. *)
Inductive descendant : node -> node -> Prop :=
| desc_self n :
    descendant n n
| desc_item nm req items c n :
    In c items -> descendant c n ->
    descendant (Node nm req (Some items)) n.

(** What [_needs_file_upload] looks for in a request: a raw body, or a
    form with a file field. *)
Definition wants_upload (r : request_spec) : Prop :=
  let body := body_of r in
  b_mode body = Some "file"
  \/ b_mode body = Some "binary"
  \/ (b_mode body = Some "formdata"
      /\ exists f, In f (formdata_of body) /\ f_type f = Some "file").

(** The header that decides the value sent under [k]: the last one of the
    list with this key. *)
Definition deciding_header (k : string) (hs : list header_item)
  : option header_item :=
  find (fun h => match h_key h with
                 | Some k' => String.eqb k k'
                 | None => false
                 end)
       (rev hs).

(** The part [_build_request] makes of a form field once the document is
    read. *)
Definition part_of {World : Type} {ext : External World}
           (env_vars : dict string) (file_path file_content : string)
           (f : form_field) : form_part :=
  if field_is_file f then
    FilePart (f_key f) (Py.basename file_path) file_content
             (mime_type_of file_path)
  else
    TextPart (f_key f)
             (_replace_variables env_vars
                (match f_value f with Some v => v | None => "" end)).

(** What holds of a result in [results], given the map and the usage set:
    its document is a key of the map; a success has its document in the
    usage set and no retry keys; a failure has no retry keys, or the two of
    a retry that succeeded, with a document of the map that is in the
    usage set. *)
Definition recorded_ok (doc_map : dict doc_info) (used : set string)
           (r : result) : Prop :=
  In (res_file_used r) (dict_keys doc_map)
  /\ (res_success r = true ->
      In (res_file_used r) used
      /\ res_retry_success r = None /\ res_correct_document r = None)
  /\ (res_success r = false ->
      (res_retry_success r = None /\ res_correct_document r = None)
      \/ (res_retry_success r = Some true
          /\ exists m, res_correct_document r = Some m
                       /\ In m (dict_keys doc_map) /\ In m used)).

(** What a report entry says of a result. *)
Definition entry_of_result (r : result) (e : api_entry) : Prop :=
  apiName e = res_api_name r
  /\ (res_success r = true ->
      failedFiles e = []
      /\ correctFiles e = [{| fileName := Py.basename (res_file_used r);
                              docType := result_doc_type r |}])
  /\ (res_success r = false ->
      length (correctFiles e) <= 1
      /\ exists ff, failedFiles e = [ff]
                    /\ nameOfFile ff = Py.basename (res_file_used r)
                    /\ String.length (errorMessage ff) <= 200).

(** [var.get("value", "")] *)
Definition value_of (var : env_value) : string :=
  match v_value var with Some v => v | None => "" end.

(** [header.get("value", "")] *)
Definition header_text (h : header_item) : string :=
  match h_value h with Some v => v | None => "" end.

(** A store with labels in mixed case, for the search on ASCII text. *)
Definition mixed_case_store : dict doc_info :=
  [("docs/a.pdf", {| document_type := Some "Invoice"; confidence := None;
                     other_members := [] |});
   ("docs/b.png", {| document_type := Some "Passport_Scan"; confidence := None;
                     other_members := [] |});
   ("docs/c.jpg", {| document_type := Some "LICENCE"; confidence := None;
                     other_members := [] |})].



(** ** A world that keeps count of the calls to the Gemini service

    Any world, with the paths given to [genai.upload_file] and the file
    handles given to the classification request, in the order of the
    calls.  Every operation is the one of the world inside; the two calls
    are also written down. *)

Record traced (World : Type) := {
  tw_world : World;
  tw_uploads : list string;
  tw_asked : list string
}.

Arguments tw_world {World} _.
Arguments tw_uploads {World} _.
Arguments tw_asked {World} _.

(** The traced world around [w'], with the logs of [w] and one more
    upload or request when there is one. *)
Definition trace_on {World : Type} (w : traced World) (w' : World)
           (uploaded asked : list string) : traced World :=
  {| tw_world := w';
     tw_uploads := tw_uploads w ++ uploaded;
     tw_asked := tw_asked w ++ asked |}.

Definition traced_external {World : Type} (ext : External World)
  : External (traced World) :=
  {| read_file := fun w path => read_file (tw_world w) path;
     guess_type := guess_type;
     requests_request := fun w m u h p =>
       let (r, w') := requests_request (tw_world w) m u h p in
       (r, trace_on w w' [] []);
     random_index := fun w keys =>
       let (i, w') := random_index (tw_world w) keys in
       (i, trace_on w w' [] []);
     diagnose_content := fun w i st b =>
       let (r, w') := diagnose_content (tw_world w) i st b in
       (r, trace_on w w' [] []);
     upload_file := fun w path =>
       let (r, w') := upload_file (tw_world w) path in
       (r, trace_on w w' [path] []);
     classify_content := fun w i file_obj =>
       let (r, w') := classify_content (tw_world w) i file_obj in
       (r, trace_on w w' [] [file_obj]);
     json_loads_answer := json_loads_answer;
     json_loads_info := json_loads_info;
     str_lower := str_lower;
     str_lower_empty := str_lower_empty |}.

(** The files of the folder that are not keys of the loaded cache. *)
Definition new_files_of (stored : option (dict doc_info))
           (walk : list (string * list string)) : list string :=
  filter (fun f => negb (dict_has (match stored with
                                   | Some r => r
                                   | None => []
                                   end) f))
         (all_files_of walk).

(** ** Predicates the statements use *)

(** A name the pattern can capture: not empty and without ['}']. *)
Definition valid_name (name : string) : bool :=
  Py.truthy name && negb (Py.has_char "}" name).

(** A stretch of text in which no placeholder can begin: it has no two
    opening braces in a row and does not end in one. *)
Definition plain (pre : string) : bool :=
  negb (Py.str_in "{{" pre) && negb (Py.endswith "{" pre).

(** [a] occurs in [b] as a contiguous block. *)
Definition substring (a b : string) : Prop :=
  exists p q, b = p ++ a ++ q.

(** The relation between a required type and a record that the search
    looks for: one lowercased label inside the other. *)
Definition labels_related {World : Type} {ext : External World}
           (doc_type : string) (info : doc_info) : Prop :=
  let label := match document_type info with
               | Some l => l
               | None => EmptyString
               end in
  substring (str_lower doc_type) (str_lower label)
  \/ substring (str_lower label) (str_lower doc_type).

(** The five ways an iteration of the loop of [test_apis] can go, as the
    calls of [_test_one_api] it makes, what it appends to [results] and
    the set it leaves, from the set [used] it finds.  The first document
    [f] is a key of the map outside [used]; the second, [m], is what the
    search answers for some required type [t]. *)
Inductive iteration {World : Type} {ext : External World}
          (doc_map : dict doc_info) (used : set string)
  : list (string * result) -> list result -> set string -> Prop :=
| it_skip :
    iteration doc_map used [] [] used
| it_success f r :
    In f (dict_keys doc_map) -> ~ In f used ->
    res_success r = true ->
    iteration doc_map used [(f, r)] [r] (set_add string_dec f used)
| it_failure f r :
    In f (dict_keys doc_map) -> ~ In f used ->
    res_success r = false ->
    iteration doc_map used [(f, r)] [r] used
| it_retry_success f r t m r2 :
    In f (dict_keys doc_map) -> ~ In f used ->
    _find_document_by_type doc_map t = Some m ->
    res_success r = false -> res_success r2 = true ->
    iteration doc_map used [(f, r); (m, r2)] [mark_retry r m]
              (set_add string_dec m used)
| it_retry_failure f r t m r2 :
    In f (dict_keys doc_map) -> ~ In f used ->
    _find_document_by_type doc_map t = Some m ->
    res_success r = false -> res_success r2 = false ->
    iteration doc_map used [(f, r); (m, r2)] [r] used.

(** A journal whose entries follow one another: each iteration starts
    from the set the one before left. *)
Inductive chain {World : Type} {ext : External World}
          (doc_map : dict doc_info)
  : set string -> list journal_entry -> set string -> Prop :=
| chain_nil used :
    chain doc_map used [] used
| chain_cons used j used' js used'' :
    j_used_before j = used ->
    iteration doc_map used (j_calls j) (j_appended j) used' ->
    chain doc_map used' js used'' ->
    chain doc_map used (j :: js) used''.

(** The documents of the successful calls of one iteration. *)
Definition successful_docs (j : journal_entry) : list string :=
  map fst (filter (fun c => res_success (snd c)) (j_calls j)).

(** The no-double-use invariant of a run: no document is behind two
    successful attempts. *)
Definition no_double_use (js : list journal_entry) : Prop :=
  NoDup (flat_map successful_docs js).

(** The first attempt of an iteration: the pool is not empty,
    [random.choice] draws [f] from it and [_test_one_api] answers [r],
    leaving the world [w2]. *)
Definition first_attempt {World : Type} {ext : External World}
           (doc_map : dict doc_info) (env_vars : dict string)
           (st : loop_state) (api : node)
           (f : string) (r : result) (w2 : World) : Prop :=
  let available_docs := filter (unused (used_documents st)) doc_map in
  available_docs <> []
  /\ exists w1,
      random_choice (world st) (dict_keys available_docs) = (f, w1)
      /\ _test_one_api env_vars w1 api f (dict_item available_docs f) = (r, w2).


(** The journal entry that the iteration on [api] added to [st]. *)
Definition added_entry {World : Type} (st st' : @loop_state World) (api : node)
           (j : journal_entry) : Prop :=
  journal st' = (journal st ++ [j])%list
  /\ j_api j = api
  /\ j_used_before j = used_documents st
  /\ results st' = (results st ++ j_appended j)%list.

(** The state in which the loop of [test_apis] starts. *)
Definition start_state {World : Type} (w : World) : loop_state :=
  {| results := []; used_documents := empty_set string;
     world := w; journal := [] |}.

(** The server takes the passport scan, [random.choice] draws the first
    document of the pool, the oracle names the type [passport]. *)
Definition passport_world : scripted :=
  world_of ["passport_scan.png"] [0; 0] (Ok passport_answer).


(** * Properties *)

Unset Implicit Arguments.
#[local] Arguments Ascii.eqb : simpl never.
#[local] Arguments String.eqb : simpl never.

(** ** Strings *)

Lemma append_nil_r (s : string) : s ++ "" = s.
Proof. induction s as [|c s IH]; simpl; [reflexivity | now rewrite IH]. Qed.

Lemma append_assoc (a b c : string) : (a ++ b) ++ c = a ++ b ++ c.
Proof. induction a as [|x a IH]; simpl; [reflexivity | now rewrite IH]. Qed.

Lemma length_append (a b : string) :
  String.length (a ++ b) = String.length a + String.length b.
Proof. induction a as [|x a IH]; simpl; [reflexivity | now rewrite IH]. Qed.

Lemma startswith_spec (p s : string) :
  Py.startswith p s = true <-> exists q, s = p ++ q.
Proof.
  revert s; induction p as [|a p IH]; intros s; simpl.
  - split; [intros _; now exists s | reflexivity].
  - destruct s as [|b s]; simpl.
    + split; [discriminate | intros [q Hq]; discriminate].
    + rewrite andb_true_iff, Ascii.eqb_eq, IH. split.
      * intros [-> [q ->]]. now exists q.
      * intros [q Hq]. injection Hq as -> ->. split; [reflexivity | now exists q].
Qed.

Lemma str_in_spec (a b : string) : Py.str_in a b = true <-> substring a b.
Proof.
  unfold substring. induction b as [|c b IH].
  - simpl. rewrite orb_false_r, startswith_spec. split.
    + intros [q Hq]. exists "", q. exact Hq.
    + intros [p [q Hq]]. destruct p; simpl in Hq.
      * now exists q.
      * discriminate.
  - cbn [Py.str_in]. rewrite orb_true_iff, startswith_spec, IH. split.
    + intros [[q Hq] | [p [q Hq]]].
      * exists "", q. exact Hq.
      * exists (String c p), q. simpl. now rewrite Hq.
    + intros [p [q Hq]]. destruct p as [|d p]; simpl in Hq.
      * left. now exists q.
      * right. injection Hq as _ Hq. now exists p, q.
Qed.

(** The primitives on some inputs. *)
Example basename_nested : Py.basename "docs/2024/passport_scan.png" = "passport_scan.png".
Proof. reflexivity. Qed.

Example splitext_hidden : Py.splitext_ext "docs/.hidden" = "".
Proof. reflexivity. Qed.

Example splitext_upper : Py.splitext_ext "docs/scan.v2.PNG" = ".PNG".
Proof. reflexivity. Qed.

Example lower_mixed : Py.lower "Passport_Scan-01" = "passport_scan-01".
Proof. reflexivity. Qed.

Example str_in_inner : Py.str_in "port" "passport_scan" = true.
Proof. reflexivity. Qed.

Example str_in_empty : Py.str_in "" "invoice" = true.
Proof. reflexivity. Qed.

Example path_join_plain : Py.path_join "docs" "invoice.pdf" = "docs/invoice.pdf".
Proof. reflexivity. Qed.

Example json_span_greedy : json_span "a {b} c {d} e" = Some "{b} c {d}".
Proof. reflexivity. Qed.

Example loads_answer :
  Json.loads passport_answer = Some [("required_document_type", Some "passport")].
Proof. reflexivity. Qed.

Example loads_extra_data : Json.loads (passport_answer ++ " {}") = None.
Proof. reflexivity. Qed.

Example upload_apis_two : upload_apis collection_two = [endpoint_a; endpoint_b].
Proof. reflexivity. Qed.

(** ** Dictionaries *)

Lemma dict_get_of_key {V : Type} (d : dict V) (k : string) :
  In k (dict_keys d) -> exists v, dict_get d k = Some v.
Proof.
  induction d as [|[k' v'] d IH]; simpl; [intros []|].
  destruct (String.eqb_spec k k') as [->|Hk].
  - intros _. now exists v'.
  - intros [H|H]; [now elim Hk | now apply IH].
Qed.

(** ** Variable substitution *)

Lemma name_run_valid (name rest : string) :
  Py.has_char "}" name = false ->
  name_run (name ++ String "}" rest) = (name, String "}" rest).
Proof.
  induction name as [|c name IH]; simpl; intros H.
  - reflexivity.
  - apply orb_false_iff in H. destruct H as [Hc Hn].
    rewrite Ascii.eqb_sym, Hc, IH by assumption. reflexivity.
Qed.

Lemma match_placeholder_group0 (name rest : string) :
  valid_name name = true ->
  match_placeholder (group0 name ++ rest) = Some (name, rest).
Proof.
  unfold valid_name, group0. intros H.
  apply andb_true_iff in H. destruct H as [Hne Hno].
  apply negb_true_iff in Hno.
  rewrite !append_assoc. cbn [append match_placeholder].
  change (name ++ "}}" ++ rest) with (name ++ String "}" (String "}" rest)).
  rewrite name_run_valid by assumption.
  destruct name; [discriminate | reflexivity].
Qed.

Lemma name_run_length (s n r : string) :
  name_run s = (n, r) -> String.length s = String.length n + String.length r.
Proof.
  revert n r; induction s as [|c s IH]; simpl; intros n r H.
  - injection H as <- <-. reflexivity.
  - destruct (Ascii.eqb c "}").
    + injection H as <- <-. reflexivity.
    + destruct (name_run s) as [n' r'] eqn:E. injection H as <- <-.
      simpl. now rewrite (IH n' r' eq_refl).
Qed.

Lemma match_placeholder_shorter (s name rest : string) :
  match_placeholder s = Some (name, rest) ->
  String.length rest < String.length s.
Proof.
  unfold match_placeholder. intros H.
  destruct s as [|a [|b s1]]; try discriminate.
  - destruct a as [[] [] [] [] [] [] [] []]; discriminate.
  - destruct (Ascii.eqb_spec a "{") as [->|Ha];
      [| destruct a as [[] [] [] [] [] [] [] []]; try discriminate; now elim Ha].
    destruct (Ascii.eqb_spec b "{") as [->|Hb];
      [| destruct b as [[] [] [] [] [] [] [] []]; try discriminate; now elim Hb].
    destruct (name_run s1) as [n r] eqn:E.
    apply name_run_length in E.
    destruct n as [|c n]; try discriminate.
    destruct r as [|x [|y r]]; try discriminate.
    + destruct x as [[] [] [] [] [] [] [] []]; discriminate.
    + destruct (Ascii.eqb_spec x "}") as [->|Hx];
        [| destruct x as [[] [] [] [] [] [] [] []]; try discriminate; now elim Hx].
      destruct (Ascii.eqb_spec y "}") as [->|Hy];
        [| destruct y as [[] [] [] [] [] [] [] []]; try discriminate; now elim Hy].
      injection H as _ <-. simpl in *. lia.
Qed.

(** Fuel beyond the length of the text changes nothing. *)
Lemma re_sub_fuel (env : dict string) (n : nat) :
  forall s m, String.length s <= n -> String.length s <= m ->
              re_sub n env s = re_sub m env s.
Proof.
  induction n as [|n IH]; intros s m Hn Hm.
  - destruct s; [| simpl in Hn; lia]. destruct m; reflexivity.
  - destruct m as [|m].
    + destruct s; [reflexivity | simpl in Hm; lia].
    + simpl. destruct (match_placeholder s) as [[name rest]|] eqn:E.
      * apply match_placeholder_shorter in E.
        rewrite (IH rest m); [reflexivity | lia | lia].
      * destruct s as [|c s]; [reflexivity|].
        simpl in Hn, Hm. rewrite (IH s m); [reflexivity | lia | lia].
Qed.

Lemma replace_variables_match (env : dict string) (s name rest : string) :
  match_placeholder s = Some (name, rest) ->
  _replace_variables env s = replacer env name ++ _replace_variables env rest.
Proof.
  intros E. unfold _replace_variables.
  pose proof (match_placeholder_shorter _ _ _ E) as Hlt.
  destruct (String.length s) as [|n] eqn:L; [lia|].
  simpl. rewrite E. f_equal. apply re_sub_fuel; lia.
Qed.

Lemma replace_variables_char (env : dict string) (c : ascii) (s : string) :
  match_placeholder (String c s) = None ->
  _replace_variables env (String c s) = String c (_replace_variables env s).
Proof.
  intros E. unfold _replace_variables.
  cbn [String.length re_sub]. rewrite E. reflexivity.
Qed.

Lemma match_placeholder_other (c : ascii) (s : string) :
  Ascii.eqb "{" c = false -> match_placeholder (String c s) = None.
Proof.
  intros H. unfold match_placeholder.
  destruct c as [[] [] [] [] [] [] [] []]; try reflexivity. discriminate.
Qed.

Lemma match_placeholder_second (c d : ascii) (s : string) :
  Ascii.eqb "{" d = false -> match_placeholder (String c (String d s)) = None.
Proof.
  intros H. unfold match_placeholder.
  destruct c as [[] [] [] [] [] [] [] []]; try reflexivity.
  destruct d as [[] [] [] [] [] [] [] []]; try reflexivity. discriminate.
Qed.

Lemma plain_tail (c : ascii) (pre : string) :
  plain (String c pre) = true -> plain pre = true.
Proof.
  unfold plain. cbn [Py.str_in Py.endswith]. intros H.
  apply andb_true_iff in H. destruct H as [H1 H2].
  apply negb_true_iff, orb_false_iff in H1.
  apply negb_true_iff, orb_false_iff in H2.
  destruct H1 as [_ ->], H2 as [_ ->]. reflexivity.
Qed.

Lemma plain_head (c : ascii) (pre s : string) :
  plain (String c pre) = true ->
  match_placeholder (String c (pre ++ String "{" s)) = None.
Proof.
  unfold plain. intros H.
  apply andb_true_iff in H. destruct H as [H1 H2].
  apply negb_true_iff in H1, H2.
  destruct (Ascii.eqb "{" c) eqn:Ec; [| now apply match_placeholder_other].
  apply Ascii.eqb_eq in Ec. subst c.
  destruct pre as [|d pre].
  - discriminate H2.
  - cbn [append]. apply match_placeholder_second.
    destruct (Ascii.eqb "{" d) eqn:Ed; [| reflexivity].
    apply Ascii.eqb_eq in Ed. subst d. discriminate H1.
Qed.

Lemma replace_variables_plain (env : dict string) (pre s : string) :
  plain pre = true ->
  _replace_variables env (pre ++ String "{" s)
  = pre ++ _replace_variables env (String "{" s).
Proof.
  induction pre as [|c pre IH]; intros H.
  - reflexivity.
  - cbn [append].
    rewrite replace_variables_char by now apply plain_head.
    now rewrite IH by now apply plain_tail with c.
Qed.

Lemma replace_variables_untouched (env : dict string) (s : string) :
  Py.has_char "{" s = false -> _replace_variables env s = s.
Proof.
  induction s as [|c s IH]; simpl; intros H; [reflexivity|].
  apply orb_false_iff in H. destruct H as [Hc Hs].
  rewrite replace_variables_char by now apply match_placeholder_other.
  now rewrite IH.
Qed.

(** ** The search for a document of the required type *)

Lemma type_matches_spec {World : Type} {ext : External World}
      (doc_type : string) (info : doc_info) :
  type_matches (str_lower doc_type) info = true <-> labels_related doc_type info.
Proof.
  unfold type_matches, labels_related, classified_type.
  now rewrite orb_true_iff, !str_in_spec.
Qed.

Lemma find_first {A : Type} (f : A -> bool) (l : list A) :
  match find f l with
  | Some x =>
      exists before after,
        l = (before ++ x :: after)%list /\ f x = true /\
        (forall y, In y before -> f y = false)
  | None => forall y, In y l -> f y = false
  end.
Proof.
  induction l as [|a l IH]; simpl.
  - intros y [].
  - destruct (f a) eqn:Fa.
    + exists [], l. repeat split; [exact Fa | intros y []].
    + destruct (find f l) as [x|].
      * destruct IH as (before & after & -> & Fx & Hb).
        exists (a :: before), after. repeat split; [exact Fx|].
        intros y [<- | Hy]; [exact Fa | now apply Hb].
      * intros y [<- | Hy]; [exact Fa | now apply IH].
Qed.

Lemma find_document_is_key {World : Type} {ext : External World}
      (doc_map : dict doc_info) (doc_type m : string) :
  _find_document_by_type doc_map doc_type = Some m ->
  exists info, dict_get doc_map m = Some info.
Proof.
  unfold _find_document_by_type.
  destruct (find _ doc_map) as [[p i]|] eqn:E; [|discriminate].
  intros [= <-]. apply find_some in E. destruct E as [Hin _].
  clear - Hin. induction doc_map as [|[k v] d IH]; [destruct Hin|].
  simpl. destruct (String.eqb_spec p k) as [->|Hk].
  - now exists v.
  - destruct Hin as [[= -> ->] | Hin]; [now elim Hk | now apply IH].
Qed.

(** C5. The search for a retry document returns the first entry of the
    document store, in its insertion order, for which the lowercased type
    label of the record ([document_type], the empty text when the record
    has none) contains the lowercased required type or is contained in it,
    and returns no document when no entry is so related.  Lowercasing is
    [str.lower] on both sides, so two required types with the same
    lowercase form find the same document; on ASCII text [PASSPORT] finds
    the label [Passport_Scan], a long required type finds a label that is
    a part of it, and a type unrelated to every label finds nothing. *)
Theorem find_document_first_related :
  forall (World : Type) (ext : External World),
    (forall (doc_map : dict doc_info) (doc_type : string),
        match _find_document_by_type doc_map doc_type with
        | Some file_path =>
            exists before info after,
              doc_map = (before ++ (file_path, info) :: after)%list
              /\ labels_related doc_type info
              /\ (forall kv, In kv before -> ~ labels_related doc_type (snd kv))
        | None =>
            forall kv, In kv doc_map -> ~ labels_related doc_type (snd kv)
        end)
    /\ (forall (doc_map : dict doc_info) (t1 t2 : string),
           str_lower t1 = str_lower t2 ->
           _find_document_by_type doc_map t1 = _find_document_by_type doc_map t2)
    /\ _find_document_by_type (ext := scripted_external)
         mixed_case_store "PASSPORT" = Some "docs/b.png"
    /\ _find_document_by_type (ext := scripted_external)
         mixed_case_store "Driving Licence Card" = Some "docs/c.jpg"
    /\ _find_document_by_type (ext := scripted_external)
         mixed_case_store "visa" = None.
Proof.
  intros World ext. split; [| split; [| repeat split; reflexivity]].
  - intros doc_map doc_type. unfold _find_document_by_type.
    pose proof (find_first
                  (fun kv : string * doc_info =>
                     type_matches (str_lower doc_type) (snd kv)) doc_map) as H.
    destruct (find _ doc_map) as [[p i]|].
    + destruct H as (before & after & -> & Hm & Hb).
      exists before, i, after. repeat split.
      * now apply type_matches_spec.
      * intros kv Hin Hrel. apply type_matches_spec in Hrel.
        rewrite (Hb kv Hin) in Hrel. discriminate.
    + intros kv Hin Hrel. apply type_matches_spec in Hrel.
      rewrite (H kv Hin) in Hrel. discriminate.
  - intros doc_map t1 t2 E. unfold _find_document_by_type. now rewrite E.
Qed.

(** ** The request builder and one attempt *)

Section AttemptFacts.
Context {World : Type} {ext : External World}.
Variable env_vars : dict string.

Lemma build_request_method (w : World) (api : node) (file : string)
      (rd : request_spec) m u h b :
  node_request api = Some rd ->
  _build_request env_vars w api file = Ok (m, u, h, b) ->
  m = match r_method rd with Some x => x | None => "POST" end.
Proof.
  unfold _build_request. intros -> H.
  destruct (mode_is_formdata _).
  - destruct (build_fields _ _ _ _); [|discriminate]. now injection H as <- _ _ _.
  - destruct (mode_is_raw _).
    + destruct (read_file _ _); [|discriminate]. now injection H as <- _ _ _.
    + now injection H as <- _ _ _.
Qed.

Lemma build_fields_readable (w : World) (file c : string) (fs : list form_field) :
  read_file w file = Ok c ->
  exists parts, build_fields env_vars w file fs = Ok parts.
Proof.
  intros Hr. induction fs as [|f fs [parts IH]]; simpl.
  - now exists [].
  - rewrite Hr, IH. destruct (field_is_file f); eexists; reflexivity.
Qed.

Lemma build_request_readable (w : World) (api : node) (file c : string)
      (rd : request_spec) :
  node_request api = Some rd ->
  read_file w file = Ok c ->
  exists u h b,
    _build_request env_vars w api file =
    Ok (match r_method rd with Some x => x | None => "POST" end, u, h, b).
Proof.
  unfold _build_request. intros -> Hr.
  destruct (mode_is_formdata _).
  - destruct (build_fields_readable w file c (formdata_of (body_of rd)) Hr)
      as [parts ->].
    now eexists _, _, _.
  - destruct (mode_is_raw _).
    + rewrite Hr. now eexists _, _, _.
    + now eexists _, _, _.
Qed.

Lemma status_ok_spec (code : Z) :
  status_ok code = true <-> In code [200; 201; 204]%Z.
Proof.
  unfold status_ok. rewrite !orb_true_iff, !Z.eqb_eq. simpl.
  intuition congruence.
Qed.

(** The two keys of a retry are not set by an attempt. *)
Lemma test_one_api_fresh (w : World) (api : node) (file : string)
      (info : doc_info) :
  let r := fst (_test_one_api env_vars w api file info) in
  res_retry_success r = None /\ res_correct_document r = None
  /\ res_file_used r = file /\ res_api_name r = api_name_of api.
Proof.
  unfold _test_one_api.
  destruct (_build_request _ _ _ _) as [[[[m u] h] b]|e]; simpl.
  - destruct (requests_request _ _ _ _ _) as [[resp|e] w']; simpl; auto.
  - auto.
Qed.

End AttemptFacts.

(** ** The loop of [test_apis] *)

Section LoopFacts.
Context {World : Type} {ext : External World}.
Variable doc_map : dict doc_info.
Variable env_vars : dict string.

Lemma nth_mod_in (keys : list string) (i : nat) :
  keys <> [] -> In (nth (i mod length keys) keys "") keys.
Proof.
  intros H. apply nth_In. apply Nat.mod_upper_bound.
  destruct keys; [congruence | discriminate].
Qed.

Lemma available_key (used : set string) (f : string) :
  In f (dict_keys (filter (unused used) doc_map)) ->
  In f (dict_keys doc_map) /\ ~ In f used.
Proof.
  unfold dict_keys. rewrite in_map_iff. intros [[k v] [<- Hin]].
  apply filter_In in Hin. destruct Hin as [Hin Hun]. split.
  - apply in_map_iff. now exists (k, v).
  - unfold unused in Hun. apply negb_true_iff in Hun. simpl in *.
    intros Hu. apply (set_mem_correct2 string_dec) in Hu. congruence.
Qed.

(** The document of the first attempt is a key of the map that is not
    in the usage set. *)
Lemma choice_is_key (used : set string) (w : World) :
  filter (unused used) doc_map <> [] ->
  let f := fst (random_choice w (dict_keys (filter (unused used) doc_map))) in
  In f (dict_keys doc_map) /\ ~ In f used.
Proof.
  intros Hne f. apply available_key. subst f. unfold random_choice.
  destruct (random_index _ _) as [i w']. simpl.
  apply nth_mod_in. unfold dict_keys.
  destruct (filter _ doc_map); [congruence | discriminate].
Qed.

(** The two lookups [available_docs[random_file]] and
    [self.doc_map[matching_doc]] find their key. *)
Lemma choice_has_item (used : set string) (w : World) :
  filter (unused used) doc_map <> [] ->
  let available_docs := filter (unused used) doc_map in
  exists info,
    dict_get available_docs (fst (random_choice w (dict_keys available_docs)))
    = Some info.
Proof.
  intros Hne available_docs. apply dict_get_of_key. subst available_docs.
  unfold random_choice. destruct (random_index _ _) as [i w']. simpl.
  apply nth_mod_in. unfold dict_keys.
  destruct (filter _ doc_map); [congruence | discriminate].
Qed.

(** Every iteration is one of the five of [iteration]. *)
Lemma loop_body_shape (st : loop_state) (api : node) :
  exists calls appended used w,
    loop_body doc_map env_vars st api = leave st api calls appended used w
    /\ iteration doc_map (used_documents st) calls appended used.
Proof.
  unfold loop_body.
  destruct (filter (unused (used_documents st)) doc_map) as [|kv avail] eqn:Ea.
  - eexists _, _, _, _. split; [reflexivity | constructor].
  - assert (Hne : filter (unused (used_documents st)) doc_map <> [])
      by (rewrite Ea; discriminate).
    pose proof (choice_is_key (used_documents st) (world st) Hne) as Hk.
    rewrite Ea in Hk. simpl in Hk.
    destruct (random_choice _ _) as [f w1]. simpl in Hk. destruct Hk as [Hk Hu].
    destruct (_test_one_api _ _ _ _ _) as [r w2].
    destruct (res_success r) eqn:Er.
    + eexists _, _, _, _. split; [reflexivity | now constructor].
    + destruct (_ask_gemini_what_went_wrong _ _) as [[t|] w3];
        [| eexists _, _, _, _; split; [reflexivity | now constructor]].
      destruct (Py.truthy t);
        [| eexists _, _, _, _; split; [reflexivity | now constructor]].
      destruct (_find_document_by_type doc_map t) as [m|] eqn:Ef;
        [| eexists _, _, _, _; split; [reflexivity | now constructor]].
      destruct (Py.truthy m);
        [| eexists _, _, _, _; split; [reflexivity | now constructor]].
      destruct (_test_one_api _ _ _ _ _) as [r2 w4].
      destruct (res_success r2) eqn:Er2.
      * eexists _, _, _, _. split; [reflexivity | now econstructor; eauto].
      * eexists _, _, _, _. split; [reflexivity | now econstructor; eauto].
Qed.

(** The loop as a whole: one journal entry per endpoint of the list, in
    order; [results] is what the entries appended; the usage sets chain. *)
Lemma fold_loop_chain (apis : list node) :
  forall st : loop_state,
    let st' := fold_left (loop_body doc_map env_vars) apis st in
    exists js,
      journal st' = (journal st ++ js)%list
      /\ map j_api js = apis
      /\ results st' = (results st ++ concat (map j_appended js))%list
      /\ chain doc_map (used_documents st) js (used_documents st').
Proof.
  induction apis as [|api apis IH]; intros st; simpl.
  - exists []. rewrite !app_nil_r. repeat split. constructor.
  - destruct (loop_body_shape st api) as (calls & appended & used & w & -> & Hit).
    destruct (IH (leave st api calls appended used w)) as (js & Hj & Ha & Hr & Hc).
    exists ({| j_api := api; j_used_before := used_documents st;
               j_calls := calls; j_appended := appended |} :: js).
    simpl in *. rewrite Hj, Hr, <- !app_assoc. simpl.
    repeat split; [now rewrite Ha|].
    econstructor; [reflexivity | exact Hit | exact Hc].
Qed.

Lemma run_loop_chain (apis : list node) (w : World) :
  let st := run_loop doc_map env_vars apis w in
  map j_api (journal st) = apis
  /\ results st = concat (map j_appended (journal st))
  /\ chain doc_map [] (journal st) (used_documents st).
Proof.
  unfold run_loop.
  destruct (fold_loop_chain apis
              {| results := []; used_documents := empty_set string;
                 world := w; journal := [] |}) as (js & Hj & Ha & Hr & Hc).
  simpl in *. rewrite Hj, Hr. auto.
Qed.

End LoopFacts.

(** ** One attempt: the default method and the outcome *)

(** C9. For an endpoint whose request specification has no [method]
    member, a request that [_build_request] builds has the method [POST];
    and it does build one whenever the document can be read. *)
Theorem build_request_default_post :
  forall (World : Type) (ext : External World) (env_vars : dict string)
         (w : World) (api_config : node) (file_path : string)
         (request_data : request_spec),
    node_request api_config = Some request_data ->
    r_method request_data = None ->
    (forall m u h b,
        _build_request env_vars w api_config file_path = Ok (m, u, h, b) ->
        m = "POST")
    /\ (forall c,
           read_file w file_path = Ok c ->
           exists u h b,
             _build_request env_vars w api_config file_path
             = Ok ("POST", u, h, b)).
Proof.
  intros World ext env w api file rd Hreq Hm. split.
  - intros m u h b H.
    rewrite (build_request_method env w api file rd m u h b Hreq H), Hm.
    reflexivity.
  - intros c Hr.
    destruct (build_request_readable env w api file c rd Hreq Hr) as (u & h & b & H).
    rewrite Hm in H. now exists u, h, b.
Qed.

Lemma build_request_default_post_witness :
  exists u h b,
    _build_request demo_env (world_of [] [] (Raised "off")) endpoint_a
                   "docs/invoice.pdf"
    = Ok ("POST", u, h, b).
Proof.
  exact (proj2 (build_request_default_post scripted scripted_external demo_env
                  (world_of [] [] (Raised "off")) endpoint_a "docs/invoice.pdf"
                  upload_request eq_refl eq_refl) "PDF" eq_refl).
Defined.

(** C4. An attempt succeeds exactly when the request was built, the
    transport call returned and the status is 200, 201 or 204.  Any other
    status gives a failure result that holds the status code and the
    response body; an exception of the transport, or of the builder, gives
    a failure result that holds the text of the exception.  In every case
    [_test_one_api] returns a result, and the loop of [test_apis] goes
    through every endpoint of its list. *)
Theorem test_one_api_outcome :
  forall (World : Type) (ext : External World) (env_vars : dict string)
         (w : World) (api_config : node) (file_path : string) (info : doc_info),
    let r := fst (_test_one_api env_vars w api_config file_path info) in
    (res_success r = true <->
     exists m u h b resp w',
       _build_request env_vars w api_config file_path = Ok (m, u, h, b)
       /\ requests_request w m u h (payload_of b) = (Ok resp, w')
       /\ In (resp_status_code resp) [200; 201; 204]%Z)
    /\ (forall m u h b resp w',
           _build_request env_vars w api_config file_path = Ok (m, u, h, b) ->
           requests_request w m u h (payload_of b) = (Ok resp, w') ->
           ~ In (resp_status_code resp) [200; 201; 204]%Z ->
           res_success r = false
           /\ res_status_code r = Some (resp_status_code resp)
           /\ res_error_message r = resp_text resp)
    /\ (forall m u h b e w',
           _build_request env_vars w api_config file_path = Ok (m, u, h, b) ->
           requests_request w m u h (payload_of b) = (Raised e, w') ->
           res_success r = false /\ res_error_message r = e)
    /\ (forall e,
           _build_request env_vars w api_config file_path = Raised e ->
           res_success r = false /\ res_error_message r = e)
    /\ (forall (doc_map : dict doc_info) (apis : list node),
           map j_api (journal (run_loop doc_map env_vars apis w)) = apis).
Proof.
  intros World ext env w api file info r. subst r. unfold _test_one_api.
  repeat split.
  - destruct (_build_request env w api file) as [[[[m u] h] b]|e]; simpl;
      [| discriminate].
    destruct (requests_request w m u h (payload_of b)) as [[resp|e] w'] eqn:Eq;
      simpl; [| discriminate].
    intros Hs. exists m, u, h, b, resp, w'.
    repeat split; [exact Eq | now apply status_ok_spec].
  - intros (m & u & h & b & resp & w' & -> & -> & Hin). simpl.
    now apply status_ok_spec.
  - rewrite H, H0. simpl.
    destruct (status_ok (resp_status_code resp)) eqn:Es; [|reflexivity].
    now apply status_ok_spec in Es.
  - rewrite H, H0. reflexivity.
  - rewrite H, H0. simpl.
    destruct (status_ok (resp_status_code resp)) eqn:Es; [|reflexivity].
    now apply status_ok_spec in Es.
  - rewrite H, H0. reflexivity.
  - rewrite H, H0. reflexivity.
  - rewrite H. reflexivity.
  - rewrite H. reflexivity.
  - intros doc_map apis. apply (run_loop_chain doc_map env apis w).
Qed.

(** The transport raises: the attempt is a failure with the text of the
    exception. *)
Lemma test_one_api_outcome_witness :
  let r := fst (_test_one_api demo_env
                  {| sw_files := demo_files; sw_accepts := []; sw_picks := [];
                     sw_answer := Raised "off"; sw_down := true |}
                  endpoint_a "docs/invoice.pdf" invoice_info) in
  res_success r = false /\ res_error_message r = "Connection refused".
Proof.
  refine (proj1 (proj2 (proj2
            (test_one_api_outcome scripted scripted_external demo_env
               {| sw_files := demo_files; sw_accepts := []; sw_picks := [];
                  sw_answer := Raised "off"; sw_down := true |}
               endpoint_a "docs/invoice.pdf" invoice_info)))
            "POST" "http://x/upload" []
            {| files := Some [FilePart (Some "file") "invoice.pdf" "PDF"
                                       "application/pdf"];
               content := None |}
            "Connection refused" _ eq_refl eq_refl).
Defined.

(** ** The bound on attempts and results *)

Lemma iteration_bounds {World : Type} {ext : External World}
      doc_map used calls appended used' :
  iteration doc_map used calls appended used' ->
  length calls <= 2 /\ length (tl calls) <= 1 /\ length appended <= 1.
Proof. intros H; destruct H; simpl; lia. Qed.

Lemma chain_bounds {World : Type} {ext : External World} doc_map used js used' :
  chain doc_map used js used' ->
  Forall (fun j => length (j_calls j) <= 2 /\ length (tl (j_calls j)) <= 1
                   /\ length (j_appended j) <= 1) js.
Proof.
  induction 1 as [|used j used' js used'' Hu Hit Hc IH]; constructor.
  - exact (iteration_bounds _ _ _ _ _ Hit).
  - exact IH.
Qed.

(** C7. Retry bound: in every run, for every endpoint of the list, the
    loop calls [_test_one_api] at most once after the first attempt, and
    the endpoint has at most 2 results in [results] (the journal has one
    entry per endpoint, and [results] is what the entries appended). *)
Theorem retry_bound :
  forall (World : Type) (ext : External World) (doc_map : dict doc_info)
         (env_vars : dict string) (apis : list node) (w : World),
    let st := run_loop doc_map env_vars apis w in
    map j_api (journal st) = apis
    /\ results st = concat (map j_appended (journal st))
    /\ Forall (fun j => length (tl (j_calls j)) <= 1
                        /\ length (j_appended j) <= 2) (journal st).
Proof.
  intros World ext doc_map env apis w st.
  destruct (run_loop_chain doc_map env apis w) as (Ha & Hr & Hc).
  repeat split; [exact Ha | exact Hr |].
  apply chain_bounds in Hc. eapply Forall_impl; [| exact Hc].
  simpl. intros j (_ & H1 & H2). split; lia.
Qed.

Section IterationFacts.
Context {World : Type} {ext : External World}.
Variable doc_map : dict doc_info.
Variable env_vars : dict string.

Lemma leave_added (st : loop_state) (api : node) calls appended used (w : World) :
  added_entry st (leave st api calls appended used w) api
              {| j_api := api; j_used_before := used_documents st;
                 j_calls := calls; j_appended := appended |}.
Proof. repeat split. Qed.

(** The first attempt succeeded. *)
Lemma loop_body_success st api f r (w2 : World) :
  first_attempt doc_map env_vars st api f r w2 ->
  res_success r = true ->
  loop_body doc_map env_vars st api =
  leave st api [(f, r)] [r] (set_add string_dec f (used_documents st)) w2.
Proof.
  intros (Hne & w1 & Hc & Ht) Hs. unfold loop_body.
  destruct (filter (unused (used_documents st)) doc_map) as [|kv l] eqn:Ea;
    [congruence|].
  rewrite Hc, Ht, Hs. reflexivity.
Qed.

(** The first attempt failed and the diagnosis named no type. *)
Lemma loop_body_no_diagnosis st api f r (w2 w3 : World) required_type :
  first_attempt doc_map env_vars st api f r w2 ->
  res_success r = false ->
  _ask_gemini_what_went_wrong w2 r = (required_type, w3) ->
  match required_type with Some t => Py.truthy t = false | None => True end ->
  loop_body doc_map env_vars st api =
  leave st api [(f, r)] [r] (used_documents st) w3.
Proof.
  intros (Hne & w1 & Hc & Ht) Hs Hd Hn. unfold loop_body.
  destruct (filter (unused (used_documents st)) doc_map) as [|kv l] eqn:Ea;
    [congruence|].
  rewrite Hc, Ht, Hs, Hd. destruct required_type as [t|]; [|reflexivity].
  now rewrite Hn.
Qed.


(** What the first attempt returns has no retry keys and names [f]. *)
Lemma first_attempt_fresh st api f r (w2 : World) :
  first_attempt doc_map env_vars st api f r w2 ->
  res_retry_success r = None /\ res_correct_document r = None
  /\ res_file_used r = f.
Proof.
  intros (_ & w1 & _ & Ht).
  pose proof (test_one_api_fresh env_vars w1 api f
                (dict_item (filter (unused (used_documents st)) doc_map) f)) as H.
  rewrite Ht in H. simpl in H. tauto.
Qed.

End IterationFacts.

(** C1. The no-double-use invariant fails on the code: with the passport
    scan first in the store, the first endpoint takes it with success; the
    second endpoint then fails with the invoice, the oracle names
    [passport], and the search, which does not look at [used_documents],
    hands out the passport scan again, which succeeds a second time. *)
Theorem retry_reuses_used_document :
  let st := run_loop docs_passport_first demo_env (upload_apis collection_two)
                     passport_world in
  map (fun j => (j_used_before j,
                 map (fun c => (fst c, res_success (snd c))) (j_calls j)))
      (journal st)
  = [([], [("docs/passport_scan.png", true)]);
     (["docs/passport_scan.png"],
      [("docs/invoice.pdf", false); ("docs/passport_scan.png", true)])]
  /\ map res_correct_document (results st)
     = [None; Some "docs/passport_scan.png"]
  /\ ~ no_double_use (journal st).
Proof.
  repeat split; try reflexivity.
  unfold no_double_use.
  replace (flat_map successful_docs _)
    with ["docs/passport_scan.png"; "docs/passport_scan.png"] by reflexivity.
  intros H. inversion H as [|x l Hnotin _]; subst. apply Hnotin. now left.
Qed.

(** What does hold of the usage set and of first attempts. *)
Lemma chain_used_nodup {World : Type} {ext : External World} doc_map used js used' :
  chain doc_map used js used' -> NoDup used -> NoDup used'.
Proof.
  induction 1 as [|used j used' js used'' Hu Hit Hc IH]; intros Hn; [exact Hn|].
  apply IH. destruct Hit; try exact Hn; now apply set_add_nodup.
Qed.

Lemma chain_first_unused {World : Type} {ext : External World} doc_map used js used' :
  chain doc_map used js used' ->
  Forall (fun j => match j_calls j with
                   | [] => True
                   | (f, _) :: _ => ~ In f (j_used_before j)
                   end) js.
Proof.
  induction 1 as [|used j used' js used'' Hu Hit Hc IH]; constructor;
    [| exact IH].
  rewrite Hu. destruct Hit; simpl; auto.
Qed.

(** X21. In every run the usage set has no path twice, and the document
    of a first attempt is never one of the set as the iteration found it. *)
Lemma run_loop_used_documents
      (World : Type) (ext : External World) (doc_map : dict doc_info)
      (env_vars : dict string) (apis : list node) (w : World) :
  let st := run_loop doc_map env_vars apis w in
  NoDup (used_documents st)
  /\ Forall (fun j => match j_calls j with
                      | [] => True
                      | (f, _) :: _ => ~ In f (j_used_before j)
                      end) (journal st).
Proof.
  intros st. destruct (run_loop_chain doc_map env_vars apis w) as (_ & _ & Hc).
  split.
  - apply (chain_used_nodup _ _ _ _ Hc). constructor.
  - apply (chain_first_unused _ _ _ _ Hc).
Qed.




(** ** The answer of the diagnosis oracle *)

Lemma from_first_app (c : ascii) (pre s : string) :
  Py.has_char c pre = false ->
  from_first c (pre ++ String c s) = Some (String c s).
Proof.
  induction pre as [|d pre IH]; simpl; intros H.
  - now rewrite Ascii.eqb_refl.
  - apply orb_false_iff in H. destruct H as [Hd Hp].
    rewrite Ascii.eqb_sym, Hd. now apply IH.
Qed.

Lemma upto_last_none (c : ascii) (s : string) :
  Py.has_char c s = false -> upto_last c s = None.
Proof.
  induction s as [|d s IH]; simpl; intros H; [reflexivity|].
  apply orb_false_iff in H. destruct H as [Hd Hs].
  now rewrite IH, Ascii.eqb_sym, Hd.
Qed.

Lemma upto_last_app (c : ascii) (s post : string) :
  Py.has_char c post = false ->
  upto_last c (s ++ String c post) = Some (s ++ String c "").
Proof.
  intros H. induction s as [|d s IH]; simpl.
  - now rewrite upto_last_none, Ascii.eqb_refl.
  - now rewrite IH.
Qed.

(** The match of the pattern: from the first opening brace to the last
    closing brace. *)
Lemma json_span_outer (pre mid post : string) :
  Py.has_char "{" pre = false ->
  Py.has_char "}" post = false ->
  json_span (pre ++ "{" ++ mid ++ "}" ++ post) = Some ("{" ++ mid ++ "}").
Proof.
  intros Hpre Hpost. unfold json_span.
  change (pre ++ "{" ++ mid ++ "}" ++ post)
    with (pre ++ String "{" (mid ++ String "}" post)).
  rewrite from_first_app by assumption.
  change (String "{" (mid ++ String "}" post))
    with (String "{" mid ++ String "}" post).
  rewrite upto_last_app by assumption. reflexivity.
Qed.

Lemma from_first_suffix (c : ascii) (s t : string) :
  from_first c s = Some t -> exists pre, s = pre ++ t.
Proof.
  induction s as [|d s IH]; simpl; [discriminate|].
  destruct (Ascii.eqb d c).
  - intros [= <-]. now exists "".
  - intros H. destruct (IH H) as [pre ->]. now exists (String d pre).
Qed.

Lemma upto_last_prefix (c : ascii) (s p : string) :
  upto_last c s = Some p -> exists post, s = p ++ post.
Proof.
  revert p; induction s as [|d s IH]; simpl; intros p; [discriminate|].
  destruct (upto_last c s) as [q|].
  - intros [= <-]. destruct (IH q eq_refl) as [post ->]. now exists post.
  - destruct (Ascii.eqb d c); [|discriminate].
    intros [= <-]. now exists s.
Qed.

Lemma json_span_substring (text j : string) :
  json_span text = Some j -> substring j text.
Proof.
  unfold json_span. destruct (from_first "{" text) as [s|] eqn:E; [|discriminate].
  intros H. apply from_first_suffix in E. destruct E as [pre ->].
  apply upto_last_prefix in H. destruct H as [post ->].
  now exists pre, post.
Qed.

Lemma from_first_head (c : ascii) (s t : string) :
  from_first c s = Some t ->
  exists pre t', s = pre ++ String c t' /\ t = String c t'.
Proof.
  induction s as [|d s IH]; simpl; [discriminate|].
  destruct (Ascii.eqb_spec d c) as [->|Hd].
  - intros [= <-]. now exists "", s.
  - intros H. destruct (IH H) as (pre & t' & -> & ->).
    now exists (String d pre), t'.
Qed.

Lemma upto_last_tail (c : ascii) (s p : string) :
  upto_last c s = Some p ->
  exists q post, p = q ++ String c "" /\ s = q ++ String c post.
Proof.
  revert p; induction s as [|d s IH]; simpl; intros p; [discriminate|].
  destruct (upto_last c s) as [p'|].
  - intros [= <-]. destruct (IH p' eq_refl) as (q & post & -> & ->).
    now exists (String d q), post.
  - destruct (Ascii.eqb_spec d c) as [->|Hd]; [|discriminate].
    intros [= <-]. now exists "", s.
Qed.

(** A match of the pattern is such a block of the text. *)
Lemma json_span_inv (text j : string) :
  json_span text = Some j ->
  exists pre mid post,
    text = pre ++ "{" ++ mid ++ "}" ++ post /\ j = "{" ++ mid ++ "}".
Proof.
  unfold json_span.
  destruct (from_first "{" text) as [t|] eqn:E; [|discriminate].
  apply from_first_head in E. destruct E as (pre & t' & -> & ->).
  intros H. apply upto_last_tail in H. destruct H as (q & post & -> & Hs).
  destruct q as [|d mid]; [discriminate Hs|].
  injection Hs as <- ->. now exists pre, mid, post.
Qed.

(** C3, as the specification has it, fails: in an answer that has braces
    behind the JSON object, the first well-formed object names the type
    [passport], and the agent finds no diagnosis. *)
Lemma first_object_not_extracted :
  spec_required_type Json.loads chatty_answer = Some "passport"
  /\ extract_required_type Json.loads (Py.strip chatty_answer) = None
  /\ fst (_ask_gemini_what_went_wrong
            (world_of [] [] (Ok chatty_answer))
            (exception_result endpoint_a "docs/invoice.pdf" "timed out"))
     = None.
Proof. repeat split; vm_compute; reflexivity. Qed.

(** C3, amended. The agent reads the answer of the oracle between the
    first opening brace and the last closing brace of the text: that whole
    block is given to [json.loads], and the diagnosis is the member
    [required_document_type] of the object it denotes.  When the block is
    no JSON text, in particular when no block of the answer is one, when
    the text has no such block, and when the oracle or the prompt file
    fails, there is no diagnosis.
    Without a diagnosis the engine appends exactly one result for the
    endpoint and makes no second attempt. *)
Theorem diagnosis_reads_outer_block :
  forall (World : Type) (ext : External World),
    (forall (w : World) (error_result : result),
        fst (_ask_gemini_what_went_wrong w error_result) =
        match read_file w "prompts/normalize_error.md" with
        | Raised _ => None
        | Ok instructions =>
            match fst (diagnose_content w instructions
                         (res_status_code error_result)
                         (Py.take 1000 (res_error_message error_result))) with
            | Raised _ => None
            | Ok text => extract_required_type json_loads_answer (Py.strip text)
            end
        end)
    /\ (forall (loads : string -> option (dict (option string)))
               (pre mid post : string),
           Py.has_char "{" pre = false ->
           Py.has_char "}" post = false ->
           extract_required_type loads (pre ++ "{" ++ mid ++ "}" ++ post) =
           match loads ("{" ++ mid ++ "}") with
           | Some answer =>
               match dict_get answer "required_document_type" with
               | Some v => v
               | None => None
               end
           | None => None
           end)
    /\ (forall (loads : string -> option (dict (option string))) (text : string),
           (forall pre mid post, text <> pre ++ "{" ++ mid ++ "}" ++ post) ->
           extract_required_type loads text = None)
    /\ (forall (loads : string -> option (dict (option string))) (text : string),
           (forall block, substring block text -> loads block = None) ->
           extract_required_type loads text = None)
    /\ (forall (doc_map : dict doc_info) (env_vars : dict string)
               (st : loop_state) (api : node) (f : string) (r : result)
               (w2 w3 : World),
           first_attempt doc_map env_vars st api f r w2 ->
           res_success r = false ->
           _ask_gemini_what_went_wrong w2 r = (None, w3) ->
           exists j,
             added_entry st (loop_body doc_map env_vars st api) api j
             /\ j_calls j = [(f, r)]
             /\ j_appended j = [r]).
Proof.
  intros World ext. split; [| split; [| split; [| split]]].
  - intros w r. unfold _ask_gemini_what_went_wrong.
    destruct (read_file w "prompts/normalize_error.md") as [instructions|e];
      [| reflexivity].
    destruct (diagnose_content _ _ _ _) as [[text|e] w']; reflexivity.
  - intros loads pre mid post Hpre Hpost. unfold extract_required_type.
    now rewrite json_span_outer.
  - intros loads text Hno. unfold extract_required_type.
    destruct (json_span text) as [j|] eqn:E; [|reflexivity].
    apply json_span_inv in E. destruct E as (pre & mid & post & E & _).
    now elim (Hno pre mid post).
  - intros loads text Hnone. unfold extract_required_type.
    destruct (json_span text) as [j|] eqn:E; [|reflexivity].
    now rewrite (Hnone j (json_span_substring text j E)).
  - intros doc_map env st api f r w2 w3 H1 Hs Hd.
    rewrite (loop_body_no_diagnosis doc_map env st api f r w2 w3 None H1 Hs Hd I).
    eexists. split; [apply leave_added|]. split; reflexivity.
Qed.

(** With the answer that has braces behind the object, the endpoint gets
    one result and one attempt. *)
Lemma diagnosis_reads_outer_block_witness :
  exists j,
    added_entry (start_state (world_of ["passport_scan.png"] [0] (Ok chatty_answer)))
                (loop_body docs_invoice_first demo_env
                   (start_state (world_of ["passport_scan.png"] [0] (Ok chatty_answer)))
                   endpoint_a)
                endpoint_a j
    /\ map fst (j_calls j) = ["docs/invoice.pdf"]
    /\ length (j_appended j) = 1.
Proof.
  edestruct (proj2 (proj2 (proj2 (proj2
               (diagnosis_reads_outer_block scripted scripted_external))))
               docs_invoice_first demo_env
               (start_state (world_of ["passport_scan.png"] [0] (Ok chatty_answer)))
               endpoint_a)
    as (j & Ha & Hc & Hp).
  - split; [discriminate | eexists; split; reflexivity].
  - reflexivity.
  - reflexivity.
  - exists j. split; [exact Ha|]. rewrite Hc, Hp. split; reflexivity.
Defined.

(** ** The report *)





(** ** The classifier *)

Section ClassifierFacts.
Context {World : Type} {ext : External World}.

Lemma no_new_files (results : dict doc_info) (all_files : list string) :
  forallb (dict_has results) all_files = true ->
  filter (fun f => negb (dict_has results f)) all_files = [].
Proof.
  induction all_files as [|f l IH]; simpl; [reflexivity|].
  intros H. apply andb_true_iff in H. destruct H as [Hf Hl].
  rewrite Hf. simpl. now apply IH.
Qed.

Lemma classify_nothing_new (cache : dict string) (w : World)
      (stored : dict doc_info) (walk : list (string * list string)) :
  forallb (dict_has stored) (all_files_of walk) = true ->
  classify_documents cache w (Some stored) walk
  = {| c_results := stored; c_cache := cache; c_world := w; c_asked := [] |}.
Proof.
  intros H. unfold classify_documents. now rewrite no_new_files.
Qed.

Lemma dict_has_set_same {V : Type} (d : dict V) (k : string) (v : V) :
  dict_has (dict_set d k v) k = true.
Proof.
  unfold dict_has, dict_keys.
  induction d as [|[k' v'] d IH]; simpl.
  - now rewrite String.eqb_refl.
  - destruct (String.eqb_spec k k') as [->|Hk]; simpl.
    + now rewrite String.eqb_refl.
    + rewrite IH. apply orb_true_r.
Qed.

Lemma dict_has_set_other {V : Type} (d : dict V) (k k0 : string) (v : V) :
  dict_has d k0 = true -> dict_has (dict_set d k v) k0 = true.
Proof.
  unfold dict_has, dict_keys.
  induction d as [|[k' v'] d IH]; simpl; [discriminate|].
  intros H. destruct (String.eqb_spec k k') as [->|Hk]; simpl.
  - exact H.
  - apply orb_true_iff in H. apply orb_true_iff.
    destruct H as [H|H]; [now left | right; now apply IH].
Qed.

Lemma classify_step_has (st : classify_state) (f k : string) :
  dict_has (c_results (classify_step st f)) f = true
  /\ (dict_has (c_results st) k = true ->
      dict_has (c_results (classify_step st f)) k = true).
Proof.
  unfold classify_step.
  destruct (_ask_gemini_to_classify _ _ _) as [[c cache'] w']. simpl.
  split; [apply dict_has_set_same | apply dict_has_set_other].
Qed.

Lemma classify_fold_has (files : list string) :
  forall (st : classify_state) (k : string),
    dict_has (c_results st) k = true \/ In k files ->
    dict_has (c_results (fold_left classify_step files st)) k = true.
Proof.
  induction files as [|f files IH]; intros st k H; simpl.
  - destruct H as [H|[]]. exact H.
  - apply IH. destruct H as [H|[<-|H]].
    + left. exact (proj2 (classify_step_has st f k) H).
    + left. exact (proj1 (classify_step_has st f f)).
    + now right.
Qed.

(** After a run every document of the folder is in the store. *)
Lemma classify_covers (cache : dict string) (w : World)
      (stored : option (dict doc_info)) (walk : list (string * list string)) :
  forallb (dict_has (c_results (classify_documents cache w stored walk)))
          (all_files_of walk) = true.
Proof.
  apply forallb_forall. intros f Hin. unfold classify_documents.
  apply classify_fold_has. simpl.
  destruct (dict_has (match stored with Some r => r | None => [] end) f) eqn:E.
  - now left.
  - right. apply filter_In. split; [exact Hin | now rewrite E].
Qed.

(** X22. A second run on the store the first run wrote, over the same
    folder, classifies nothing and returns that store, whatever the upload
    cache and the world of the second run are. *)
Lemma classify_rerun (cache cache' : dict string) (w w' : World)
      (stored : option (dict doc_info)) (walk : list (string * list string)) :
  let first := classify_documents cache w stored walk in
  let second := classify_documents cache' w' (Some (c_results first)) walk in
  c_results second = c_results first /\ c_asked second = [] /\ c_world second = w'.
Proof.
  intros first second. subst second.
  rewrite classify_nothing_new by apply classify_covers.
  repeat split.
Qed.

End ClassifierFacts.

(** C8. Classification with a warm cache: when every document of the
    folder is a key of the loaded cache, [classify_documents] returns the
    cache as it was loaded, asks the classification oracle for no
    document, and leaves the world and the upload cache as they were. *)
Theorem classify_warm_cache :
  forall (World : Type) (ext : External World) (cache : dict string)
         (w : World) (stored : dict doc_info)
         (walk : list (string * list string)),
    forallb (dict_has stored) (all_files_of walk) = true ->
    let st := classify_documents cache w (Some stored) walk in
    c_results st = stored
    /\ c_asked st = []
    /\ c_world st = w
    /\ c_cache st = cache.
Proof.
  intros World ext cache w stored walk H st. subst st.
  rewrite classify_nothing_new by exact H. repeat split.
Qed.

Lemma classify_warm_cache_witness :
  let st := classify_documents [] passport_world (Some docs_invoice_first)
              [("docs", ["invoice.pdf"; ".DS_Store"; "passport_scan.png"; "README.md"])] in
  c_results st = docs_invoice_first /\ c_asked st = [].
Proof.
  destruct (classify_warm_cache scripted scripted_external [] passport_world
              docs_invoice_first
              [("docs", ["invoice.pdf"; ".DS_Store"; "passport_scan.png"; "README.md"])]
              eq_refl) as (H1 & H2 & _).
  split; [exact H1 | exact H2].
Defined.


(** * Further properties of the code *)

(** ** Variable substitution with nothing to substitute *)

Lemma name_run_split (s n r : string) :
  name_run s = (n, r) -> s = n ++ r.
Proof.
  revert n r; induction s as [|c s IH]; simpl; intros n r H.
  - now injection H as <- <-.
  - destruct (Ascii.eqb c "}").
    + now injection H as <- <-.
    + destruct (name_run s) as [n' r'] eqn:E. injection H as <- <-.
      simpl. now rewrite (IH n' r' eq_refl).
Qed.

(** A match of the pattern is the text [{{name}}] at the head. *)
Lemma match_placeholder_sound (s name rest : string) :
  match_placeholder s = Some (name, rest) -> s = group0 name ++ rest.
Proof.
  unfold match_placeholder, group0. intros H.
  destruct s as [|a [|b s1]]; try discriminate.
  - destruct a as [[] [] [] [] [] [] [] []]; discriminate.
  - destruct (Ascii.eqb_spec a "{") as [->|Ha];
      [| destruct a as [[] [] [] [] [] [] [] []]; try discriminate; now elim Ha].
    destruct (Ascii.eqb_spec b "{") as [->|Hb];
      [| destruct b as [[] [] [] [] [] [] [] []]; try discriminate; now elim Hb].
    destruct (name_run s1) as [n r] eqn:E.
    apply name_run_split in E.
    destruct n as [|c n]; try discriminate.
    destruct r as [|x [|y r]]; try discriminate.
    + destruct x as [[] [] [] [] [] [] [] []]; discriminate.
    + destruct (Ascii.eqb_spec x "}") as [->|Hx];
        [| destruct x as [[] [] [] [] [] [] [] []]; try discriminate; now elim Hx].
      destruct (Ascii.eqb_spec y "}") as [->|Hy];
        [| destruct y as [[] [] [] [] [] [] [] []]; try discriminate; now elim Hy].
      injection H as <- <-. subst s1.
      rewrite !append_assoc. reflexivity.
Qed.

Lemma re_sub_empty_env (n : nat) :
  forall s, String.length s <= n -> re_sub n [] s = s.
Proof.
  induction n as [|n IH]; intros s Hn; [reflexivity|].
  simpl. destruct (match_placeholder s) as [[name rest]|] eqn:E.
  - pose proof (match_placeholder_shorter _ _ _ E) as Hlt.
    rewrite (IH rest) by lia.
    symmetry. now apply match_placeholder_sound.
  - destruct s as [|c s]; [reflexivity|].
    simpl in Hn. rewrite (IH s) by lia. reflexivity.
Qed.

(** X1. Without environment variables (the agent before
    [set_environment], or an environment file without enabled entries)
    [_replace_variables] returns every text as it is: each placeholder is
    replaced by itself. *)
Theorem replace_variables_empty_environment :
  forall text : string, _replace_variables [] text = text.
Proof.
  intros text. unfold _replace_variables. now apply re_sub_empty_env.
Qed.

(** ** Variable substitution, in full *)

Lemma name_run_no_close (s n r : string) :
  name_run s = (n, r) -> Py.has_char "}" n = false.
Proof.
  revert n r; induction s as [|c s IH]; simpl; intros n r H.
  - now injection H as <- <-.
  - destruct (Ascii.eqb c "}") eqn:Ec.
    + now injection H as <- <-.
    + destruct (name_run s) as [n' r'] eqn:E. injection H as <- <-.
      simpl. rewrite Ascii.eqb_sym, Ec. exact (IH n' r' eq_refl).
Qed.

(** The name a match captures is not empty and has no closing brace. *)
Lemma match_placeholder_valid (s name rest : string) :
  match_placeholder s = Some (name, rest) -> valid_name name = true.
Proof.
  unfold match_placeholder, valid_name. intros H.
  destruct s as [|a [|b s1]]; try discriminate.
  - destruct a as [[] [] [] [] [] [] [] []]; discriminate.
  - destruct (Ascii.eqb_spec a "{") as [->|Ha];
      [| destruct a as [[] [] [] [] [] [] [] []]; try discriminate; now elim Ha].
    destruct (Ascii.eqb_spec b "{") as [->|Hb];
      [| destruct b as [[] [] [] [] [] [] [] []]; try discriminate; now elim Hb].
    destruct (name_run s1) as [n r] eqn:E.
    apply name_run_no_close in E.
    destruct n as [|c n]; try discriminate.
    destruct r as [|x [|y r]]; try discriminate.
    + destruct x as [[] [] [] [] [] [] [] []]; discriminate.
    + destruct (Ascii.eqb_spec x "}") as [->|Hx];
        [| destruct x as [[] [] [] [] [] [] [] []]; try discriminate; now elim Hx].
      destruct (Ascii.eqb_spec y "}") as [->|Hy];
        [| destruct y as [[] [] [] [] [] [] [] []]; try discriminate; now elim Hy].
      injection H as <- _. now rewrite E.
Qed.

(** A text that is no placeholder followed by a rest has no match at its
    head. *)
Lemma match_placeholder_none (s : string) :
  (forall name rest, valid_name name = true -> s <> group0 name ++ rest) ->
  match_placeholder s = None.
Proof.
  intros H. destruct (match_placeholder s) as [[name rest]|] eqn:E;
    [| reflexivity].
  elim (H name rest).
  - now apply match_placeholder_valid with s rest.
  - now apply match_placeholder_sound.
Qed.

(** C6, as the specification has it, fails: in [{{{base}}}] the text
    [{{base}}] stands between two braces and [base] is in the environment,
    yet nothing is replaced: the match of the pattern begins at the first
    brace and captures the name [{base], which the environment does not
    have. *)
Lemma placeholder_behind_brace_kept :
  "{{{base}}}" = "{" ++ group0 "base" ++ "}"
  /\ dict_get [("base", "B")] "base" = Some "B"
  /\ _replace_variables [("base", "B")] "{{{base}}}" = "{{{base}}}"
  /\ _replace_variables [("base", "B")] "{{{base}}}" <> "{" ++ "B" ++ "}".
Proof. repeat split; try reflexivity. discriminate. Qed.

(** C6, amended. Variable resolution reads the template from left to
    right.  Where the text begins with [{{name}}], the name being a
    non-empty run of characters other than the closing brace (it may hold
    opening braces), the placeholder is replaced by [env_vars[name]]
    verbatim when the name is in the environment and is left as written
    when it is not, and resolution goes on behind it; where it does not,
    the first character is copied and resolution goes on behind it; the
    empty text stays empty.  These three cases fix the result for every
    template.  So a placeholder behind a stretch in which no placeholder
    begins is resolved, a text without opening brace is returned as it
    is, [{{base}}/upload] with [{base: http://x}] gives [http://x/upload],
    and [{{missing}}] with an empty environment stays [{{missing}}]. *)
Theorem replace_variables_resolves :
  (forall env_vars : dict string, _replace_variables env_vars "" = "")
  /\ (forall (env_vars : dict string) (name rest : string),
         valid_name name = true ->
         _replace_variables env_vars (group0 name ++ rest) =
         match dict_get env_vars name with
         | Some value => value
         | None => "{{" ++ name ++ "}}"
         end ++ _replace_variables env_vars rest)
  /\ (forall (env_vars : dict string) (c : ascii) (rest : string),
         (forall name rest', valid_name name = true ->
                             String c rest <> group0 name ++ rest') ->
         _replace_variables env_vars (String c rest)
         = String c (_replace_variables env_vars rest))
  /\ (forall (env_vars : dict string) (pre name rest : string),
         plain pre = true ->
         valid_name name = true ->
         _replace_variables env_vars (pre ++ group0 name ++ rest) =
         pre ++ match dict_get env_vars name with
                | Some value => value
                | None => "{{" ++ name ++ "}}"
                end ++ _replace_variables env_vars rest)
  /\ (forall (env_vars : dict string) (text : string),
         Py.has_char "{" text = false ->
         _replace_variables env_vars text = text)
  /\ _replace_variables [("base", "http://x")] "{{base}}/upload" = "http://x/upload"
  /\ _replace_variables [] "{{missing}}" = "{{missing}}".
Proof.
  split; [reflexivity|].
  split.
  { intros env name rest Hname.
    rewrite (replace_variables_match env _ _ _
               (match_placeholder_group0 name rest Hname)).
    reflexivity. }
  split.
  { intros env c rest H. apply replace_variables_char.
    now apply match_placeholder_none. }
  split.
  { intros env pre name rest Hpre Hname.
    assert (E : group0 name ++ rest = String "{" (("{" ++ name ++ "}}") ++ rest))
      by reflexivity.
    rewrite E, (replace_variables_plain env _ _ Hpre), <- E.
    rewrite (replace_variables_match env _ _ _
               (match_placeholder_group0 name rest Hname)).
    reflexivity. }
  split; [| split; reflexivity].
  intros env text H. now apply replace_variables_untouched.
Qed.

(** A placeholder with a name of the environment, then one without. *)
Lemma replace_variables_resolves_witness :
  _replace_variables [("host", "api.test")] (group0 "host" ++ "/v1/{{id}}")
  = "api.test/v1/{{id}}".
Proof.
  rewrite (proj1 (proj2 replace_variables_resolves) [("host", "api.test")]
             "host" "/v1/{{id}}" eq_refl).
  reflexivity.
Defined.

(** ** The walk through the collection *)

(** Induction on a node with the hypothesis on the nodes of its [item]
    list. *)
Lemma node_nested_ind (P : node -> Prop)
      (step : forall nm req item,
          (forall l, item = Some l -> Forall P l) -> P (Node nm req item)) :
  forall n, P n.
Proof.
  fix IH 1. intros [nm req [l|]]; apply step; intros l' E; [| discriminate E].
  assert (Hl : Forall P l).
  { clear E. induction l as [|m l IHl]; constructor; [apply IH | exact IHl]. }
  now injection E as <-.
Qed.

Lemma in_search_request (c n : node) :
  In n (search c) -> node_request n <> None.
Proof.
  revert c. apply (node_nested_ind (fun c => In n (search c) -> node_request n <> None)).
  intros nm req item IH. simpl. rewrite in_app_iff. intros [H|H].
  - destruct req as [r|]; [| destruct H].
    destruct H as [<-|[]]. discriminate.
  - destruct item as [l|]; [| destruct H].
    apply in_flat_map in H. destruct H as (m & Hm & Hin).
    pose proof (IH l eq_refl) as Hall. rewrite Forall_forall in Hall.
    exact (Hall m Hm Hin).
Qed.

Lemma in_search_descendant (c n : node) :
  In n (search c) -> descendant c n.
Proof.
  revert c. apply (node_nested_ind (fun c => In n (search c) -> descendant c n)).
  intros nm req item IH. simpl. rewrite in_app_iff. intros [H|H].
  - destruct req as [r|]; [| destruct H].
    destruct H as [<-|[]]. constructor.
  - destruct item as [l|]; [| destruct H].
    apply in_flat_map in H. destruct H as (m & Hm & Hin).
    pose proof (IH l eq_refl) as Hall. rewrite Forall_forall in Hall.
    apply desc_item with m; [exact Hm | exact (Hall m Hm Hin)].
Qed.

Lemma descendant_in_search (c n : node) :
  descendant c n -> node_request n <> None -> In n (search c).
Proof.
  induction 1 as [n | nm req items c n Hin Hd IH]; intros Hreq.
  - destruct n as [nm [r|] item]; [| now elim Hreq].
    simpl. now left.
  - simpl. apply in_app_iff. right. apply in_flat_map.
    exists c. split; [exact Hin | now apply IH].
Qed.

Lemma find_all_apis_exact_aux (c n : node) :
  In n (_find_all_apis c) <-> descendant c n /\ node_request n <> None.
Proof.
  unfold _find_all_apis. split.
  - intros H. split; [now apply in_search_descendant | now apply in_search_request with c].
  - intros [Hd Hr]. now apply descendant_in_search.
Qed.

(** X2. [_find_all_apis] returns exactly the nodes with a [request] member
    that are the collection itself or lie below it through [item] lists,
    however deep; a node with a request is returned even when it also has
    items, and its own items are searched too. *)
Theorem find_all_apis_exact :
  forall collection n : node,
    In n (_find_all_apis collection)
    <-> descendant collection n /\ node_request n <> None.
Proof.
  intros c n. apply find_all_apis_exact_aux.
Qed.

Lemma mode_is_raw_spec (mode : option string) :
  mode_is_raw mode = true <-> mode = Some "file" \/ mode = Some "binary".
Proof.
  unfold mode_is_raw. destruct mode as [m|].
  - rewrite orb_true_iff, !String.eqb_eq. split.
    + intros [->| ->]; auto.
    + intros [[= ->]|[= ->]]; auto.
  - split; [discriminate | intros [H|H]; discriminate].
Qed.

Lemma mode_is_formdata_spec (mode : option string) :
  mode_is_formdata mode = true <-> mode = Some "formdata".
Proof.
  unfold mode_is_formdata. destruct mode as [m|].
  - rewrite String.eqb_eq. split; [now intros -> | now intros [= ->]].
  - split; discriminate.
Qed.

Lemma field_is_file_spec (f : form_field) :
  field_is_file f = true <-> f_type f = Some "file".
Proof.
  unfold field_is_file. destruct (f_type f) as [t|].
  - rewrite String.eqb_eq. split; [now intros -> | now intros [= ->]].
  - split; discriminate.
Qed.

Lemma needs_file_upload_spec (api : node) :
  _needs_file_upload api = true
  <-> exists r, node_request api = Some r /\ wants_upload r.
Proof.
  unfold _needs_file_upload, wants_upload.
  destruct (node_request api) as [r|].
  - destruct (mode_is_raw (b_mode (body_of r))) eqn:Eraw.
    + apply mode_is_raw_spec in Eraw. split; [| reflexivity].
      intros _. exists r. split; [reflexivity | tauto].
    + assert (Hnr : ~ (b_mode (body_of r) = Some "file"
                       \/ b_mode (body_of r) = Some "binary")).
      { intros H. apply mode_is_raw_spec in H. congruence. }
      destruct (mode_is_formdata (b_mode (body_of r))) eqn:Efd.
      * apply mode_is_formdata_spec in Efd. rewrite existsb_exists. split.
        -- intros (f & Hin & Hf). exists r. split; [reflexivity|].
           right. right. split; [exact Efd|].
           exists f. split; [exact Hin | now apply field_is_file_spec].
        -- intros (r' & [= <-] & [H|[H|(_ & f & Hin & Hf)]]); try tauto.
           exists f. split; [exact Hin | now apply field_is_file_spec].
      * split; [discriminate|].
        intros (r' & [= <-] & [H|[H|(H & _)]]); try tauto.
        apply mode_is_formdata_spec in H. congruence.
  - split; [discriminate | intros (r & H & _); discriminate].
Qed.

(** X3. The endpoints [test_apis] works on are exactly the nodes of the
    collection that have a request whose body is a raw file ([file] or
    [binary] mode) or a form with at least one field of type [file]; a
    request without body, with another mode, or with a form of text fields
    only is left out. *)
Theorem upload_apis_exact :
  forall collection api : node,
    In api (upload_apis collection)
    <-> descendant collection api
        /\ exists r, node_request api = Some r /\ wants_upload r.
Proof.
  intros c api. unfold upload_apis. rewrite filter_In, needs_file_upload_spec.
  rewrite find_all_apis_exact_aux. split.
  - intros [[Hd _] Hw]. now split.
  - intros [Hd (r & Hr & Hw)]. split; [split; [exact Hd | congruence]|].
    now exists r.
Qed.

(** ** The loop of [test_apis]: what is recorded and what is consumed *)

Lemma find_document_in_keys {World : Type} {ext : External World}
      (doc_map : dict doc_info) (t m : string) :
  _find_document_by_type doc_map t = Some m -> In m (dict_keys doc_map).
Proof.
  unfold _find_document_by_type.
  destruct (find _ doc_map) as [[p i]|] eqn:E; [|discriminate].
  intros [= <-]. apply find_some in E. destruct E as [Hin _].
  unfold dict_keys. apply in_map_iff. now exists (p, i).
Qed.

Section RunFacts.
Context {World : Type} {ext : External World}.
Variable doc_map : dict doc_info.
Variable env_vars : dict string.

Lemma first_attempt_key (st : loop_state) (api : node) f r (w2 : World) :
  first_attempt doc_map env_vars st api f r w2 ->
  In f (dict_keys doc_map) /\ ~ In f (used_documents st).
Proof.
  intros (Hne & w1 & Hc & _).
  pose proof (choice_is_key doc_map (used_documents st) (world st) Hne) as H.
  simpl in H. now rewrite Hc in H.
Qed.

(** The branches of an iteration, with the attempts they make. *)
Lemma loop_body_cases (st : loop_state) (api : node) :
  let used := used_documents st in
  (filter (unused used) doc_map = []
   /\ loop_body doc_map env_vars st api = leave st api [] [] used (world st))
  \/ exists f r w2,
      first_attempt doc_map env_vars st api f r w2
      /\ ((res_success r = true
           /\ loop_body doc_map env_vars st api
              = leave st api [(f, r)] [r] (set_add string_dec f used) w2)
          \/ (res_success r = false
              /\ exists w3,
                  loop_body doc_map env_vars st api
                  = leave st api [(f, r)] [r] used w3)
          \/ (res_success r = false
              /\ exists t m r2 w4,
                  _find_document_by_type doc_map t = Some m
                  /\ loop_body doc_map env_vars st api
                     = leave st api [(f, r); (m, r2)]
                             [if res_success r2 then mark_retry r m else r]
                             (if res_success r2
                              then set_add string_dec m used else used) w4)).
Proof.
  intros used. subst used. unfold loop_body.
  destruct (filter (unused (used_documents st)) doc_map) as [|kv avail] eqn:Ea.
  - left. split; reflexivity.
  - right.
    destruct (random_choice (world st) (dict_keys (kv :: avail))) as [f w1] eqn:Ec.
    destruct (_test_one_api env_vars w1 api f (dict_item (kv :: avail) f))
      as [r w2] eqn:Et.
    exists f, r, w2. split.
    { unfold first_attempt. rewrite Ea. split; [discriminate|].
      exists w1. split; [exact Ec | exact Et]. }
    destruct (res_success r) eqn:Er; [left; split; reflexivity|].
    right.
    destruct (_ask_gemini_what_went_wrong w2 r) as [[t|] w3];
      [| left; split; [reflexivity | now exists w3]].
    destruct (Py.truthy t);
      [| left; split; [reflexivity | now exists w3]].
    destruct (_find_document_by_type doc_map t) as [m|] eqn:Ef;
      [| left; split; [reflexivity | now exists w3]].
    destruct (Py.truthy m);
      [| left; split; [reflexivity | now exists w3]].
    destruct (_test_one_api env_vars w3 api m (dict_item doc_map m))
      as [r2 w4] eqn:Et2.
    right. split; [reflexivity|]. exists t, m, r2, w4.
    split; [exact Ef|]. destruct (res_success r2); reflexivity.
Qed.

Lemma fold_loop_invariant (P : loop_state -> Prop) :
  (forall st api, P st -> P (loop_body doc_map env_vars st api)) ->
  forall apis st, P st -> P (fold_left (loop_body doc_map env_vars) apis st).
Proof.
  intros Hstep apis. induction apis as [|api apis IH]; intros st H; simpl.
  - exact H.
  - apply IH. now apply Hstep.
Qed.

Lemma recorded_ok_grow (used used' : set string) (r : result) :
  (forall x, In x used -> In x used') ->
  recorded_ok doc_map used r -> recorded_ok doc_map used' r.
Proof.
  intros Hsub (Hk & Hs & Hf). split; [exact Hk|]. split.
  - intros E. destruct (Hs E) as (H1 & H2 & H3). auto.
  - intros E. destruct (Hf E) as [H|(H1 & m & H2 & H3 & H4)]; [now left|].
    right. split; [exact H1|]. exists m. auto.
Qed.

Lemma loop_body_recorded_ok (st : loop_state) (api : node) :
  Forall (recorded_ok doc_map (used_documents st)) (results st) ->
  Forall (recorded_ok doc_map
            (used_documents (loop_body doc_map env_vars st api)))
         (results (loop_body doc_map env_vars st api)).
Proof.
  intros Hold.
  destruct (loop_body_cases st api)
    as [[_ ->] | (f & r & w2 & H1 & Hcase)].
  - simpl. now rewrite app_nil_r.
  - destruct (first_attempt_key st api f r w2 H1) as [Hk Hu].
    destruct (first_attempt_fresh doc_map env_vars st api f r w2 H1)
      as (Hr & Hc & Hfile).
    destruct Hcase as [[Hs ->] | [[Hs [w3 ->]] | [Hs (t & m & r2 & w4 & Hf & ->)]]];
      simpl; apply Forall_app; split.
    + eapply Forall_impl; [| exact Hold]. intros a.
      apply recorded_ok_grow. intros x. apply set_add_intro1.
    + constructor; [| constructor]. split; [now rewrite Hfile|]. split.
      * intros _. rewrite Hfile. split; [now apply set_add_intro2 | auto].
      * congruence.
    + exact Hold.
    + constructor; [| constructor]. split; [now rewrite Hfile|]. split.
      * congruence.
      * intros _. now left.
    + eapply Forall_impl; [| exact Hold]. intros a.
      apply recorded_ok_grow. intros x Hx.
      destruct (res_success r2); [now apply set_add_intro1 | exact Hx].
    + constructor; [| constructor].
      pose proof (find_document_in_keys doc_map t m Hf) as Hm.
      destruct (res_success r2); unfold recorded_ok; simpl.
      * split; [now rewrite Hfile|]. split; [congruence|].
        intros _. right. split; [reflexivity|]. exists m.
        split; [reflexivity|]. split; [exact Hm | now apply set_add_intro2].
      * split; [now rewrite Hfile|]. split; [congruence|].
        intros _. now left.
Qed.

Lemma run_loop_recorded_ok (apis : list node) (w : World) :
  let st := run_loop doc_map env_vars apis w in
  Forall (recorded_ok doc_map (used_documents st)) (results st).
Proof.
  unfold run_loop.
  apply (fold_loop_invariant
           (fun st => Forall (recorded_ok doc_map (used_documents st)) (results st))).
  - intros st api. apply loop_body_recorded_ok.
  - constructor.
Qed.

Lemma loop_body_exhausted (st : loop_state) (api : node) :
  filter (unused (used_documents st)) doc_map = [] ->
  loop_body doc_map env_vars st api
  = leave st api [] [] (used_documents st) (world st).
Proof. intros E. unfold loop_body. now rewrite E. Qed.

End RunFacts.

(** X4. Every result of a run names a document of the map.  A successful
    result has its document in the final usage set and carries no retry
    keys.  A failed result carries either no retry key or both, and then
    [correct_document] is a document of the map that is in the final usage
    set: [retry_success] is never set on a success, and never without
    [correct_document]. *)
Theorem run_results_recorded_ok :
  forall (World : Type) (ext : External World) (doc_map : dict doc_info)
         (env_vars : dict string) (apis : list node) (w : World),
    let st := run_loop doc_map env_vars apis w in
    Forall (recorded_ok doc_map (used_documents st)) (results st).
Proof.
  intros World ext doc_map env apis w. apply run_loop_recorded_ok.
Qed.

(** X5. Resource exhaustion: once every document of the map is in the
    usage set, the loop skips each further endpoint: it appends no result,
    makes no attempt and asks no oracle, so [results], the usage set and
    the world stay as they are.  With an empty document map this is so
    from the start. *)
Theorem exhausted_pool_skips :
  forall (World : Type) (ext : External World) (doc_map : dict doc_info)
         (env_vars : dict string) (apis : list node) (st : loop_state),
    filter (unused (used_documents st)) doc_map = [] ->
    let st' := fold_left (loop_body doc_map env_vars) apis st in
    results st' = results st
    /\ used_documents st' = used_documents st
    /\ world st' = world st
    /\ length (journal st') = length (journal st) + length apis.
Proof.
  intros World ext doc_map env apis. induction apis as [|api apis IH];
    intros st Hex; simpl.
  - repeat split; lia.
  - rewrite (loop_body_exhausted doc_map env st api Hex).
    destruct (IH (leave st api [] [] (used_documents st) (world st)) Hex)
      as (Hr & Hu & Hw & Hj).
    simpl in Hr, Hu, Hw, Hj. rewrite Hr, Hu, Hw, Hj.
    rewrite app_nil_r, length_app. simpl. repeat split; lia.
Qed.

Lemma exhausted_pool_skips_witness :
  results (run_loop [] demo_env (upload_apis collection_two) passport_world) = []
  /\ world (run_loop [] demo_env (upload_apis collection_two) passport_world)
     = passport_world.
Proof.
  destruct (exhausted_pool_skips scripted scripted_external [] demo_env
              (upload_apis collection_two) (start_state passport_world) eq_refl)
    as (Hr & _ & Hw & _).
  split; [exact Hr | exact Hw].
Defined.

Lemma chain_used_incl {World : Type} {ext : External World} doc_map used js used' :
  chain doc_map used js used' ->
  incl used (dict_keys doc_map) -> incl used' (dict_keys doc_map).
Proof.
  induction 1 as [|used j used' js used'' Hu Hit Hc IH]; intros Hin; [exact Hin|].
  apply IH. destruct Hit; try exact Hin.
  - intros x Hx. apply set_add_elim in Hx. destruct Hx as [->|Hx]; auto.
  - intros x Hx. apply set_add_elim in Hx. destruct Hx as [->|Hx]; auto.
    now apply find_document_in_keys with t.
Qed.

(** X6. The usage set of a run holds only paths of the document map, so
    it never has more elements than the map has documents. *)
Theorem run_used_within_store :
  forall (World : Type) (ext : External World) (doc_map : dict doc_info)
         (env_vars : dict string) (apis : list node) (w : World),
    let st := run_loop doc_map env_vars apis w in
    incl (used_documents st) (dict_keys doc_map)
    /\ length (used_documents st) <= length doc_map.
Proof.
  intros World ext doc_map env apis w st.
  destruct (run_loop_chain doc_map env apis w) as (_ & _ & Hc).
  assert (Hincl : incl (used_documents st) (dict_keys doc_map)).
  { apply (chain_used_incl _ _ _ _ Hc). intros x []. }
  split; [exact Hincl|].
  replace (length doc_map) with (length (dict_keys doc_map))
    by (unfold dict_keys; apply length_map).
  apply NoDup_incl_length; [| exact Hincl].
  apply (chain_used_nodup _ _ _ _ Hc). constructor.
Qed.

(** ** The report on the results of a run *)

Lemma length_take (n : nat) (s : string) : String.length (Py.take n s) <= n.
Proof.
  revert s; induction n as [|n IH]; intros [|c s]; simpl; try lia.
  specialize (IH s). lia.
Qed.

Lemma report_entry_recorded (doc_map : dict doc_info) (used : set string)
      (r : result) :
  recorded_ok doc_map used r ->
  exists e, report_entry doc_map r = Ok e /\ entry_of_result r e.
Proof.
  intros (Hk & Hs & Hf). unfold report_entry, retry_document, entry_of_result.
  destruct (res_success r) eqn:Es.
  - destruct (Hs eq_refl) as (_ & -> & _). eexists. split; [reflexivity|].
    unfold initial_entry. cbn -[Py.take Py.basename]. rewrite Es.
    split; [reflexivity|]. split; [auto | discriminate].
  - destruct (Hf eq_refl) as [(-> & _) | (-> & m & -> & Hm & _)].
    + eexists. split; [reflexivity|].
      unfold initial_entry. cbn -[Py.take Py.basename]. rewrite Es.
      split; [reflexivity|]. split; [discriminate|].
      intros _. split; [simpl; lia|]. eexists. split; [reflexivity|].
      cbn -[Py.take Py.basename]. split; [reflexivity | apply length_take].
    + destruct (Py.truthy m).
      * destruct (dict_get_of_key doc_map m Hm) as [info ->].
        eexists. split; [reflexivity|].
        unfold initial_entry. cbn -[Py.take Py.basename]. rewrite Es.
        split; [reflexivity|]. split; [discriminate|].
        intros _. split; [simpl; lia|]. eexists. split; [reflexivity|].
        cbn -[Py.take Py.basename]. split; [reflexivity | apply length_take].
      * eexists. split; [reflexivity|].
        unfold initial_entry. cbn -[Py.take Py.basename]. rewrite Es.
        split; [reflexivity|]. split; [discriminate|].
        intros _. split; [simpl; lia|]. eexists. split; [reflexivity|].
        cbn -[Py.take Py.basename]. split; [reflexivity | apply length_take].
Qed.

Lemma generate_report_recorded (doc_map : dict doc_info) (used : set string)
      (rs : list result) :
  Forall (recorded_ok doc_map used) rs ->
  exists report,
    generate_report doc_map rs = Ok report
    /\ Forall2 entry_of_result rs report.
Proof.
  induction 1 as [|r rs Hr Hrs (report & Hg & Hall)]; simpl.
  - exists []. split; [reflexivity | constructor].
  - destruct (report_entry_recorded doc_map used r Hr) as (e & -> & He).
    rewrite Hg. exists (e :: report). split; [reflexivity | now constructor].
Qed.

(** X7. The report loop of [run_workflow] never raises on the results of
    a run made with the same document map ([doc_map[correct_doc]] finds
    its key).  The report has one entry per result, in the order of the
    results and under the same API name.  The entry of a success lists the
    document as its only correct file and no failed file; the entry of a
    failure lists the document as its only failed file, with an error
    text of at most 200 characters, and at most one correct file. *)
Theorem report_of_run :
  forall (World : Type) (ext : External World) (doc_map : dict doc_info)
         (env_vars : dict string) (apis : list node) (w : World),
    let rs := results (run_loop doc_map env_vars apis w) in
    exists report,
      generate_report doc_map rs = Ok report
      /\ Forall2 entry_of_result rs report.
Proof.
  intros World ext doc_map env apis w rs. subst rs.
  apply generate_report_recorded
    with (used := used_documents (run_loop doc_map env apis w)).
  apply run_loop_recorded_ok.
Qed.

(** ** Dictionaries: assignment and lookup *)

Lemma dict_get_set {V : Type} (d : dict V) (k k' : string) (v : V) :
  dict_get (dict_set d k v) k'
  = if String.eqb k' k then Some v else dict_get d k'.
Proof.
  induction d as [|[k0 v0] d IH]; simpl.
  - reflexivity.
  - destruct (String.eqb_spec k k0) as [->|Hk]; simpl.
    + destruct (String.eqb k' k0); reflexivity.
    + rewrite IH. destruct (String.eqb_spec k' k0) as [->|Hk'].
      * destruct (String.eqb_spec k0 k) as [E|_]; [now elim Hk | reflexivity].
      * reflexivity.
Qed.

Lemma find_snoc {A : Type} (p : A -> bool) (l : list A) (x : A) :
  find p (l ++ [x])
  = match find p l with
    | Some y => Some y
    | None => if p x then Some x else None
    end.
Proof.
  induction l as [|a l IH]; simpl; [reflexivity|].
  destruct (p a); [reflexivity | exact IH].
Qed.

(** ** The environment file *)

Lemma load_values_lookup (values : list env_value) :
  forall acc : dict string,
    Forall (fun var => is_enabled var = true -> v_key var <> None) values ->
    exists env,
      load_values values acc = Ok env
      /\ forall k,
          dict_get env k
          = match deciding_value k values with
            | Some var => Some (value_of var)
            | None => dict_get acc k
            end.
Proof.
  unfold deciding_value.
  induction values as [|var values IH]; intros acc Hall.
  - exists acc. split; reflexivity.
  - inversion Hall as [|x l Hvar Hrest]; subst. simpl.
    destruct (is_enabled var) eqn:Een.
    + destruct (v_key var) as [k0|] eqn:Ek; [| now elim (Hvar eq_refl)].
      destruct (IH (dict_set acc k0 (match v_value var with
                                     | Some v => v | None => "" end)) Hrest)
        as (env & -> & Hget).
      exists env. split; [reflexivity|]. intros k.
      rewrite Hget, find_snoc, Een, Ek, dict_get_set. simpl.
      destruct (find _ (rev values)); [reflexivity|].
      destruct (String.eqb k k0); reflexivity.
    + destruct (IH acc Hrest) as (env & -> & Hget).
      exists env. split; [reflexivity|]. intros k.
      rewrite Hget, find_snoc, Een. simpl.
      destruct (find _ (rev values)); reflexivity.
Qed.

(** X8. The environment built from the file: when every enabled entry has
    a key, loading succeeds, and a variable has the value of the last
    enabled entry with its name (the empty text when that entry has no
    value); entries with [enabled] false are ignored, entries without
    [enabled] count as enabled, and a name with no enabled entry is not in
    the environment. *)
Theorem load_environment_lookup :
  forall values : list env_value,
    Forall (fun var => is_enabled var = true -> v_key var <> None) values ->
    exists env,
      load_environment (Some values) = Ok env
      /\ forall k,
          dict_get env k
          = match deciding_value k values with
            | Some var => Some (value_of var)
            | None => None
            end.
Proof.
  intros values Hall. unfold load_environment.
  destruct (load_values_lookup values [] Hall) as (env & H & Hget).
  exists env. split; [exact H | exact Hget].
Qed.

Lemma load_environment_lookup_witness :
  exists env,
    load_environment
      (Some [{| v_key := Some "base"; v_value := Some "http://old"; v_enabled := None |};
             {| v_key := Some "base"; v_value := Some "http://x"; v_enabled := Some true |};
             {| v_key := Some "base"; v_value := Some "http://off"; v_enabled := Some false |};
             {| v_key := None; v_value := Some "stray"; v_enabled := Some false |}])
    = Ok env
    /\ dict_get env "base" = Some "http://x"
    /\ dict_get env "token" = None.
Proof.
  destruct (load_environment_lookup
              [{| v_key := Some "base"; v_value := Some "http://old"; v_enabled := None |};
               {| v_key := Some "base"; v_value := Some "http://x"; v_enabled := Some true |};
               {| v_key := Some "base"; v_value := Some "http://off"; v_enabled := Some false |};
               {| v_key := None; v_value := Some "stray"; v_enabled := Some false |}])
    as (env & H & Hget).
  - repeat constructor; simpl; discriminate.
  - exists env. split; [exact H|]. split; rewrite Hget; reflexivity.
Defined.

Lemma load_values_raises (values : list env_value) :
  forall acc : dict string,
    Exists (fun var => is_enabled var = true /\ v_key var = None) values ->
    load_values values acc = Raised "'key'".
Proof.
  induction values as [|var values IH]; intros acc H.
  - inversion H.
  - simpl. destruct (is_enabled var) eqn:Een.
    + destruct (v_key var) as [k0|] eqn:Ek; [| reflexivity].
      apply IH. inversion H as [x l [_ Hk] | x l Hl]; subst;
        [congruence | exact Hl].
    + apply IH. inversion H as [x l [He _] | x l Hl]; subst;
        [congruence | exact Hl].
Qed.

(** X9. One enabled entry without a key makes the loading of the
    environment raise [KeyError], whatever the other entries are: no
    environment is set and step 2 of the workflow fails. *)
Theorem load_environment_missing_key :
  forall values : list env_value,
    Exists (fun var => is_enabled var = true /\ v_key var = None) values ->
    load_environment (Some values) = Raised "'key'".
Proof.
  intros values H. unfold load_environment. now apply load_values_raises.
Qed.

Lemma load_environment_missing_key_witness :
  load_environment
    (Some [{| v_key := Some "base"; v_value := Some "http://x"; v_enabled := None |};
           {| v_key := None; v_value := Some "stray"; v_enabled := None |}])
  = Raised "'key'".
Proof.
  apply load_environment_missing_key.
  apply Exists_cons_tl. apply Exists_cons_hd. split; reflexivity.
Defined.

(** ** The headers of a request *)

Lemma build_headers_lookup (env_vars : dict string) (hs : list header_item) :
  forall (acc : dict string) (k : string),
    dict_get (build_headers env_vars hs acc) k
    = match (if Py.truthy k then deciding_header k hs else None) with
      | Some h => Some (_replace_variables env_vars (header_text h))
      | None => dict_get acc k
      end.
Proof.
  unfold deciding_header.
  induction hs as [|h hs IH]; intros acc k.
  - simpl. destruct (Py.truthy k); reflexivity.
  - cbn [build_headers rev]. rewrite find_snoc.
    destruct (h_key h) as [k0|] eqn:Ek.
    + destruct (Py.truthy k0) eqn:Et.
      * rewrite IH, dict_get_set.
        destruct (Py.truthy k) eqn:Etk.
        -- destruct (find _ (rev hs)); [reflexivity|].
           destruct (String.eqb k k0); reflexivity.
        -- destruct (String.eqb_spec k k0) as [->|_]; [congruence | reflexivity].
      * rewrite IH. destruct (Py.truthy k) eqn:Etk; [| reflexivity].
        destruct (find _ (rev hs)); [reflexivity|].
        destruct (String.eqb_spec k k0) as [->|_]; [congruence | reflexivity].
    + rewrite IH. destruct (Py.truthy k); [| reflexivity].
      destruct (find _ (rev hs)); reflexivity.
Qed.

(** X10. The headers [_build_request] sends: under a name, the value of
    the last header of the list with this name, with its variables
    resolved (the empty text when the header has no value); headers
    without a key or with an empty key are not sent. *)
Theorem build_headers_last_wins :
  forall (env_vars : dict string) (hs : list header_item) (k : string),
    dict_get (build_headers env_vars hs []) k
    = if Py.truthy k then
        match deciding_header k hs with
        | Some h => Some (_replace_variables env_vars (header_text h))
        | None => None
        end
      else None.
Proof.
  intros env hs k. rewrite build_headers_lookup.
  destruct (Py.truthy k); reflexivity.
Qed.

(** ** The body of a request and the document *)

Lemma raw_not_formdata (mode : option string) :
  mode_is_raw mode = true -> mode_is_formdata mode = false.
Proof.
  intros H. apply mode_is_raw_spec in H.
  destruct H as [-> | ->]; reflexivity.
Qed.

Section BuilderFacts.
Context {World : Type} {ext : External World}.
Variable env_vars : dict string.

Lemma build_fields_unreadable (w : World) (file e : string)
      (fs : list form_field) :
  existsb field_is_file fs = true ->
  read_file w file = Raised e ->
  build_fields env_vars w file fs = Raised e.
Proof.
  intros Hex Hr. induction fs as [|f fs IH]; simpl in *; [discriminate|].
  destruct (field_is_file f); simpl in Hex.
  - now rewrite Hr.
  - now rewrite (IH Hex).
Qed.

Lemma build_fields_parts (w : World) (file c : string) (fs : list form_field) :
  read_file w file = Ok c ->
  build_fields env_vars w file fs = Ok (map (part_of env_vars file c) fs).
Proof.
  intros Hr. induction fs as [|f fs IH]; simpl; [reflexivity|].
  unfold part_of at 1. rewrite Hr, IH. destruct (field_is_file f); reflexivity.
Qed.

Lemma build_request_unreadable (w : World) (api : node) (file e : string) :
  _needs_file_upload api = true ->
  read_file w file = Raised e ->
  _build_request env_vars w api file = Raised e.
Proof.
  unfold _needs_file_upload, _build_request. intros Hn Hr.
  destruct (node_request api) as [rd|]; [| discriminate].
  destruct (mode_is_raw (b_mode (body_of rd))) eqn:Eraw.
  - rewrite (raw_not_formdata _ Eraw). now rewrite Hr.
  - destruct (mode_is_formdata (b_mode (body_of rd))); [| discriminate].
    now rewrite (build_fields_unreadable w file e _ Hn Hr).
Qed.

Lemma build_request_url (w : World) (api : node) (file : string)
      (rd : request_spec) m u h b :
  node_request api = Some rd ->
  _build_request env_vars w api file = Ok (m, u, h, b) ->
  u = _replace_variables env_vars (url_text (r_url rd)).
Proof.
  unfold _build_request. intros -> H.
  destruct (mode_is_formdata _).
  - destruct (build_fields _ _ _ _); [|discriminate]. now injection H as _ <- _ _.
  - destruct (mode_is_raw _).
    + destruct (read_file _ _); [|discriminate]. now injection H as _ <- _ _.
    + now injection H as _ <- _ _.
Qed.

End BuilderFacts.

(** X11. When the endpoint needs an upload and the document cannot be
    read, the attempt is a failure whose error text is the text of the
    I/O error; the transport is not called and the world is left as it
    was. *)
Theorem unreadable_document_fails_attempt :
  forall (World : Type) (ext : External World) (env_vars : dict string)
         (w : World) (api : node) (file_path e : string) (info : doc_info),
    _needs_file_upload api = true ->
    read_file w file_path = Raised e ->
    _test_one_api env_vars w api file_path info
    = (exception_result api file_path e, w).
Proof.
  intros World ext env w api file e info Hn Hr. unfold _test_one_api.
  now rewrite (build_request_unreadable env w api file e Hn Hr).
Qed.

Lemma unreadable_document_fails_attempt_witness :
  let r := fst (_test_one_api demo_env passport_world endpoint_a
                              "docs/missing.pdf" invoice_info) in
  res_success r = false
  /\ res_error_message r = "No such file or directory"
  /\ res_status_code r = None.
Proof.
  rewrite (unreadable_document_fails_attempt scripted scripted_external demo_env
             passport_world endpoint_a "docs/missing.pdf"
             "No such file or directory" invoice_info eq_refl eq_refl).
  repeat split.
Defined.

(** X12. A raw upload ([file] or [binary] mode) sends the bytes of the
    document as the whole payload, without form fields; when the document
    is empty the request is sent without any body. *)
Theorem raw_body_is_the_document :
  forall (World : Type) (ext : External World) (env_vars : dict string)
         (w : World) (api : node) (file_path c : string)
         (rd : request_spec),
    node_request api = Some rd ->
    mode_is_raw (b_mode (body_of rd)) = true ->
    read_file w file_path = Ok c ->
    exists m u h,
      _build_request env_vars w api file_path
      = Ok (m, u, h, {| files := None; content := Some c |})
      /\ payload_of {| files := None; content := Some c |}
         = match c with
           | EmptyString => NoBody
           | String _ _ => WithData c
           end.
Proof.
  intros World ext env w api file c rd Hreq Hraw Hr.
  unfold _build_request. rewrite Hreq, (raw_not_formdata _ Hraw), Hraw, Hr.
  eexists _, _, _. split; [reflexivity|].
  destruct c; reflexivity.
Qed.

Lemma raw_body_is_the_document_witness :
  exists m u h,
    _build_request demo_env passport_world
      (Node (Some "raw")
            (Some {| r_method := Some "PUT"; r_url := None; r_header := None;
                     r_body := Some {| b_mode := Some "binary";
                                       b_formdata := None |} |})
            None)
      "docs/invoice.pdf"
    = Ok (m, u, h, {| files := None; content := Some "PDF" |}).
Proof.
  destruct (raw_body_is_the_document scripted scripted_external demo_env
              passport_world
              (Node (Some "raw")
                    (Some {| r_method := Some "PUT"; r_url := None;
                             r_header := None;
                             r_body := Some {| b_mode := Some "binary";
                                               b_formdata := None |} |})
                    None)
              "docs/invoice.pdf" "PDF" _ eq_refl eq_refl eq_refl)
    as (m & u & h & H & _).
  now exists m, u, h.
Defined.

(** X13. A form upload keeps the fields of the form in their order: every
    field of type [file] becomes a file part with the base name of the
    document, its bytes and the MIME type of its path, every other field a
    text part with its value resolved; with several file fields each one
    carries the same document.  A form without fields is sent without
    body. *)
Theorem form_body_parts :
  forall (World : Type) (ext : External World) (env_vars : dict string)
         (w : World) (api : node) (file_path c : string)
         (rd : request_spec),
    node_request api = Some rd ->
    mode_is_formdata (b_mode (body_of rd)) = true ->
    read_file w file_path = Ok c ->
    let parts := map (part_of env_vars file_path c) (formdata_of (body_of rd)) in
    exists m u h,
      _build_request env_vars w api file_path
      = Ok (m, u, h, {| files := Some parts; content := None |})
      /\ payload_of {| files := Some parts; content := None |}
         = match parts with
           | [] => NoBody
           | _ :: _ => WithFiles parts
           end.
Proof.
  intros World ext env w api file c rd Hreq Hfd Hr parts. subst parts.
  unfold _build_request.
  rewrite Hreq, Hfd, (build_fields_parts env w file c _ Hr).
  eexists _, _, _. split; [reflexivity|].
  unfold payload_of. simpl.
  destruct (map _ (formdata_of (body_of rd))); reflexivity.
Qed.

Lemma form_body_parts_witness :
  exists m u h,
    _build_request demo_env passport_world endpoint_a "docs/invoice.pdf"
    = Ok (m, u, h,
          {| files := Some [FilePart (Some "file") "invoice.pdf" "PDF"
                                     "application/pdf"];
             content := None |}).
Proof.
  destruct (form_body_parts scripted scripted_external demo_env passport_world
              endpoint_a "docs/invoice.pdf" "PDF" upload_request
              eq_refl eq_refl eq_refl)
    as (m & u & h & H & _).
  now exists m, u, h.
Defined.

(** X14. A request without [url] is sent to the text [None], and a [url]
    object without [raw] to the empty text: [_build_request] does not
    refuse an endpoint for its missing address. *)
Theorem missing_url_is_sent :
  forall (World : Type) (ext : External World) (env_vars : dict string)
         (w : World) (api : node) (file_path : string) (rd : request_spec)
         (m u : string) (h : dict string) (b : body_data),
    node_request api = Some rd ->
    _build_request env_vars w api file_path = Ok (m, u, h, b) ->
    (r_url rd = None -> u = "None")
    /\ (r_url rd = Some (UrlDict None) -> u = "").
Proof.
  intros World ext env w api file rd m u h b Hreq H.
  rewrite (build_request_url env w api file rd m u h b Hreq H).
  split; intros ->; reflexivity.
Qed.

Lemma missing_url_is_sent_witness :
  _build_request demo_env passport_world
    (Node None
          (Some {| r_method := None; r_url := None; r_header := None;
                   r_body := None |})
          None)
    "docs/invoice.pdf"
  = Ok ("POST", "None", [], {| files := None; content := None |})
  /\ "None" = "None".
Proof.
  split; [reflexivity|].
  exact (proj1 (missing_url_is_sent scripted scripted_external demo_env
                  passport_world
                  (Node None
                        (Some {| r_method := None; r_url := None;
                                 r_header := None; r_body := None |})
                        None)
                  "docs/invoice.pdf"
                  {| r_method := None; r_url := None; r_header := None;
                     r_body := None |}
                  "POST" "None" [] {| files := None; content := None |}
                  eq_refl eq_refl) eq_refl).
Defined.

(** ** A record without type label *)

(** X15. A document whose record has no [document_type], or an empty
    one, is related to every required type (the empty text is inside every
    text): as long as the map holds such a record the search for a retry
    document finds a document, whatever type the oracle named. *)
Theorem unlabelled_document_matches_any :
  forall (World : Type) (ext : External World)
         (doc_map : dict doc_info) (doc_type p : string) (info : doc_info),
    In (p, info) doc_map ->
    document_type info = None \/ document_type info = Some "" ->
    exists m, _find_document_by_type doc_map doc_type = Some m.
Proof.
  intros World ext doc_map t p info Hin Hlabel. unfold _find_document_by_type.
  destruct (find (fun kv : string * doc_info =>
                    type_matches (str_lower t) (snd kv)) doc_map)
    as [[m i]|] eqn:E.
  - now exists m.
  - pose proof (find_none _ _ E (p, info) Hin) as Hno. simpl in Hno.
    unfold type_matches, classified_type in Hno.
    assert (Hempty : Py.str_in (str_lower match document_type info with
                                          | Some x => x
                                          | None => ""
                                          end) (str_lower t) = true).
    { destruct Hlabel as [E1 | E1]; rewrite E1, str_lower_empty;
        destruct (str_lower t); reflexivity. }
    rewrite Hempty, orb_true_r in Hno. discriminate.
Qed.

Lemma unlabelled_document_matches_any_witness :
  exists m,
    _find_document_by_type (ext := scripted_external)
      [("docs/invoice.pdf", invoice_info);
       ("docs/blank.bin", {| document_type := None; confidence := None;
                             other_members := [] |})]
      "driving licence"
    = Some m.
Proof.
  apply (unlabelled_document_matches_any scripted scripted_external _
           "driving licence" "docs/blank.bin"
           {| document_type := None; confidence := None;
              other_members := [] |}).
  - right. left. reflexivity.
  - left. reflexivity.
Defined.

(** ** The classifier: uploads, the cache and new documents *)

Lemma dict_has_get {V : Type} (d : dict V) (k : string) :
  dict_has d k = true <-> exists v, dict_get d k = Some v.
Proof.
  unfold dict_has, dict_keys. induction d as [|[k' v'] d IH]; simpl.
  - split; [discriminate | intros [v H]; discriminate].
  - destruct (String.eqb k k'); simpl.
    + split; [intros _; now exists v' | reflexivity].
    + exact IH.
Qed.

Lemma dict_set_app_absent {V : Type} (d a : dict V) (k : string) (v : V) :
  dict_has d k = false -> (dict_set (d ++ a) k v = d ++ dict_set a k v)%list.
Proof.
  unfold dict_has, dict_keys. induction d as [|[k' v'] d IH]; simpl; intros H.
  - reflexivity.
  - apply orb_false_iff in H. destruct H as [Hk Hd].
    rewrite Hk. now rewrite IH.
Qed.

Lemma dict_get_app_present {V : Type} (d a : dict V) (k : string) (v : V) :
  dict_get d k = Some v -> dict_get (d ++ a)%list k = Some v.
Proof.
  induction d as [|[k' v'] d IH]; simpl; [discriminate|].
  destruct (String.eqb k k'); [trivial | exact IH].
Qed.

(** X16. [_upload_file] remembers a successful upload: the handle is in
    the cache under the path, and every later call for the path returns
    this handle with the cache unchanged and without calling the service.
    A failed upload leaves the cache as it was, so the next call tries
    again. *)
Theorem upload_file_memoizes :
  forall (World : Type) (ext : External World) (cache : dict string)
         (w : World) (file_path : string),
    match _upload_file cache w file_path with
    | (Ok file_obj, cache', _) =>
        dict_get cache' file_path = Some file_obj
        /\ forall w2 : World,
            _upload_file cache' w2 file_path = (Ok file_obj, cache', w2)
    | (Raised _, cache', _) => cache' = cache
    end.
Proof.
  intros World ext cache w p. unfold _upload_file.
  destruct (dict_get cache p) as [obj|] eqn:E.
  - split; [exact E|]. intros w2. now rewrite E.
  - destruct (upload_file w p) as [[obj|e] w'].
    + assert (Hget : dict_get (dict_set cache p obj) p = Some obj)
        by (rewrite dict_get_set; now rewrite String.eqb_refl).
      split; [exact Hget|]. intros w2. now rewrite Hget.
    + reflexivity.
Qed.

Section ClassifierRunFacts.
Context {World : Type} {ext : External World}.
Variable stored : dict doc_info.

Lemma classify_fold_asked (files : list string) :
  forall st : classify_state,
    c_asked (fold_left classify_step files st) = (c_asked st ++ files)%list.
Proof.
  induction files as [|f files IH]; intros st; simpl.
  - now rewrite app_nil_r.
  - rewrite IH. unfold classify_step.
    destruct (_ask_gemini_to_classify _ _ _) as [[c cache'] w']. simpl.
    now rewrite <- app_assoc.
Qed.

Lemma classify_fold_prefix (files : list string) :
  (forall f, In f files -> dict_has stored f = false) ->
  forall (st : classify_state) (added : dict doc_info),
    c_results st = (stored ++ added)%list ->
    exists added',
      c_results (fold_left classify_step files st) = (stored ++ added')%list.
Proof.
  induction files as [|f files IH]; intros Hnew st added Hst; simpl.
  - now exists added.
  - unfold classify_step at 2.
    destruct (_ask_gemini_to_classify _ _ _) as [[c cache'] w'].
    eapply IH; [intros g Hg; apply Hnew; now right|].
    simpl. rewrite Hst. apply dict_set_app_absent. apply Hnew. now left.
Qed.

(** The records under paths that were not in the loaded cache are not
    empty. *)
Lemma classify_fold_truthy (files : list string) :
  forall st : classify_state,
    (forall k info, dict_has stored k = false ->
                    dict_get (c_results st) k = Some info ->
                    info_truthy info = true) ->
    forall k info,
      dict_has stored k = false ->
      dict_get (c_results (fold_left classify_step files st)) k = Some info ->
      info_truthy info = true.
Proof.
  induction files as [|f files IH]; intros st Hst; simpl; [exact Hst|].
  apply IH. intros k info Hk. unfold classify_step.
  destruct (_ask_gemini_to_classify _ _ _) as [[c cache'] w']. simpl.
  rewrite dict_get_set. destruct (String.eqb k f).
  - intros [= <-]. destruct c as [c|]; [| reflexivity].
    destruct (info_truthy c) eqn:Ec; [exact Ec | reflexivity].
  - now apply Hst.
Qed.

End ClassifierRunFacts.

(** X17. [classify_documents] keeps the loaded cache: the returned store
    is the cache followed by the records of the new documents, and every
    path of the cache keeps the record it had.  A record that says
    [failed] is kept like any other, so a document whose classification
    failed once is not classified again. *)
Theorem classify_keeps_cache :
  forall (World : Type) (ext : External World) (cache : dict string)
         (w : World) (stored : dict doc_info)
         (walk : list (string * list string)),
    let st := classify_documents cache w (Some stored) walk in
    (exists added, c_results st = (stored ++ added)%list)
    /\ forall k info,
        dict_get stored k = Some info -> dict_get (c_results st) k = Some info.
Proof.
  intros World ext cache w stored walk st.
  assert (H : exists added, c_results st = (stored ++ added)%list).
  { subst st. unfold classify_documents.
    apply classify_fold_prefix with (added := []).
    - intros f Hf. apply filter_In in Hf. destruct Hf as [_ Hf].
      now apply negb_true_iff in Hf.
    - simpl. now rewrite app_nil_r. }
  split; [exact H|].
  destruct H as [added ->]. intros k info. apply dict_get_app_present.
Qed.

Section TracedClassifier.
Context {World : Type} (ext : External World).

(** One step writes down at most one upload, of the file of the step, and
    at most one request. *)
Lemma traced_classify_step (st : @classify_state (traced World)) (f : string) :
  let st' := classify_step (ext := traced_external ext) st f in
  exists uploaded asked,
    tw_uploads (c_world st') = (tw_uploads (c_world st) ++ uploaded)%list
    /\ tw_asked (c_world st') = (tw_asked (c_world st) ++ asked)%list
    /\ (uploaded = [] \/ uploaded = [f])
    /\ (length asked <= 1).
Proof.
  unfold classify_step, _ask_gemini_to_classify, _upload_file.
  destruct (dict_get (c_cache st) f) as [obj|].
  - cbn [read_file traced_external].
    destruct (read_file (tw_world (c_world st)) "prompts/classify_document.md")
      as [instr|e].
    + cbn [classify_content traced_external].
      destruct (classify_content (tw_world (c_world st)) instr obj)
        as [[text|e] w2]; cbn.
      * destruct (json_span (Py.strip text)); cbn;
          exists [], [obj]; rewrite app_nil_r; auto.
      * exists [], [obj]. rewrite app_nil_r. auto.
    + cbn. exists [], []. rewrite !app_nil_r. auto.
  - cbn [upload_file traced_external].
    destruct (upload_file (tw_world (c_world st)) f) as [[obj|e] w1]; cbn.
    + destruct (read_file w1 "prompts/classify_document.md") as [instr|e].
      * destruct (classify_content w1 instr obj) as [[text|e] w2]; cbn.
        -- destruct (json_span (Py.strip text)); cbn;
             exists [f], [obj]; rewrite <- !app_assoc; auto.
        -- exists [f], [obj]. rewrite <- !app_assoc. auto.
      * cbn. exists [f], []. rewrite !app_nil_r. auto.
    + exists [f], []. rewrite app_nil_r. auto.
Qed.

Lemma traced_classify_fold (files : list string) :
  forall st : @classify_state (traced World),
    let st' := fold_left (classify_step (ext := traced_external ext)) files st in
    exists uploaded asked,
      tw_uploads (c_world st') = (tw_uploads (c_world st) ++ uploaded)%list
      /\ tw_asked (c_world st') = (tw_asked (c_world st) ++ asked)%list
      /\ incl uploaded files
      /\ length uploaded <= length files
      /\ length asked <= length files.
Proof.
  induction files as [|f files IH]; intros st; simpl.
  - exists [], []. rewrite !app_nil_r. repeat split; auto. intros x [].
  - destruct (traced_classify_step st f) as (u1 & a1 & Hu1 & Ha1 & Hf & Hl).
    destruct (IH (classify_step (ext := traced_external ext) st f))
      as (u2 & a2 & Hu2 & Ha2 & Hin & Hlu & Hla).
    exists (u1 ++ u2)%list, (a1 ++ a2)%list.
    rewrite Hu2, Ha2, Hu1, Ha1, <- !app_assoc, !length_app.
    repeat split.
    + intros x Hx. apply in_app_iff in Hx. destruct Hx as [Hx|Hx].
      * destruct Hf as [-> | ->]; [destruct Hx|].
        destruct Hx as [<-|[]]. now left.
      * right. now apply Hin.
    + destruct Hf as [-> | ->]; simpl; lia.
    + lia.
Qed.

(** A file that the upload cache does not hold is uploaded, and the step
    adds at most this file to the cache. *)
Lemma traced_step_uploads (st : @classify_state (traced World)) (f : string) :
  dict_get (c_cache st) f = None ->
  let st' := classify_step (ext := traced_external ext) st f in
  tw_uploads (c_world st') = (tw_uploads (c_world st) ++ [f])%list
  /\ forall g, g <> f -> dict_get (c_cache st') g = dict_get (c_cache st) g.
Proof.
  intros Hc. unfold classify_step, _ask_gemini_to_classify, _upload_file.
  rewrite Hc. cbn [upload_file traced_external].
  destruct (upload_file (tw_world (c_world st)) f) as [[obj|e] w1]; cbn.
  - assert (Hg : forall g, g <> f ->
                 dict_get (dict_set (c_cache st) f obj) g
                 = dict_get (c_cache st) g).
    { intros g Hg. rewrite dict_get_set.
      destruct (String.eqb_spec g f) as [E|_]; [now elim Hg | reflexivity]. }
    destruct (read_file w1 "prompts/classify_document.md") as [instr|e].
    + destruct (classify_content w1 instr obj) as [[text|e] w2]; cbn.
      * destruct (json_span (Py.strip text)); cbn;
          rewrite app_nil_r; split; [reflexivity | exact Hg | reflexivity | exact Hg].
      * rewrite app_nil_r. split; [reflexivity | exact Hg].
    + cbn. split; [reflexivity | exact Hg].
  - split; [reflexivity | reflexivity].
Qed.

Lemma traced_fold_uploads (files : list string) :
  forall st : @classify_state (traced World),
    NoDup files ->
    (forall f, In f files -> dict_get (c_cache st) f = None) ->
    tw_uploads (c_world (fold_left (classify_step (ext := traced_external ext))
                                   files st))
    = (tw_uploads (c_world st) ++ files)%list.
Proof.
  induction files as [|f files IH]; intros st Hnd Hc; simpl.
  - now rewrite app_nil_r.
  - inversion Hnd as [|x l Hnotin Hnd']; subst.
    destruct (traced_step_uploads st f (Hc f (or_introl eq_refl))) as [Hu Hg].
    rewrite IH; [| exact Hnd' |].
    + rewrite Hu, <- app_assoc. reflexivity.
    + intros g Hin. rewrite Hg.
      * apply Hc. now right.
      * intros ->. contradiction.
Qed.

End TracedClassifier.

(** X18. The Gemini service is contacted for new documents only.  In any
    world, with the calls written down from empty logs, every upload that
    [classify_documents] makes is of a file of the folder that is not a
    key of the loaded cache, and there are at most as many uploads and at
    most as many classification requests as there are such files; each of
    these files belongs to a walked directory and its name neither starts
    with a dot nor ends in [.md].  When these files are distinct and none
    is in the upload cache, each is uploaded once, in the order of the
    walk. *)
Theorem classify_asks_new_documents :
  forall (World : Type) (ext : External World) (cache : dict string)
         (w : World) (stored : option (dict doc_info))
         (walk : list (string * list string)),
    let st := classify_documents (ext := traced_external ext) cache
                {| tw_world := w; tw_uploads := []; tw_asked := [] |}
                stored walk in
    let new_files := new_files_of stored walk in
    incl (tw_uploads (c_world st)) new_files
    /\ length (tw_uploads (c_world st)) <= length new_files
    /\ length (tw_asked (c_world st)) <= length new_files
    /\ (NoDup new_files ->
        (forall f, In f new_files -> dict_get cache f = None) ->
        tw_uploads (c_world st) = new_files)
    /\ forall f,
        In f new_files ->
        dict_has (match stored with Some r => r | None => [] end) f = false
        /\ exists root names name,
            In (root, names) walk /\ In name names
            /\ f = Py.path_join root name
            /\ Py.startswith "." name = false
            /\ Py.endswith ".md" name = false.
Proof.
  intros World ext cache w stored walk st new_files.
  subst st. unfold classify_documents. fold (new_files_of stored walk).
  fold new_files.
  destruct (traced_classify_fold ext new_files
              {| c_results := match stored with Some r => r | None => [] end;
                 c_cache := cache;
                 c_world := {| tw_world := w; tw_uploads := []; tw_asked := [] |};
                 c_asked := [] |})
    as (u & a & Hu & Ha & Hin & Hlu & Hla).
  cbn [c_world tw_uploads tw_asked app] in Hu, Ha.
  split; [now rewrite Hu|]. split; [now rewrite Hu|]. split; [now rewrite Ha|].
  split.
  { intros Hnd Hc.
    exact (traced_fold_uploads ext new_files
             {| c_results := match stored with Some r => r | None => [] end;
                c_cache := cache;
                c_world := {| tw_world := w; tw_uploads := []; tw_asked := [] |};
                c_asked := [] |} Hnd Hc). }
  intros f H. split.
  - subst new_files. unfold new_files_of in H. apply filter_In in H.
    destruct H as [_ H]. now apply negb_true_iff in H.
  - subst new_files. unfold new_files_of in H. apply filter_In in H.
    destruct H as [Hin' _].
    unfold all_files_of in Hin'. apply in_flat_map in Hin'.
    destruct Hin' as ([root names] & Hd & Hin'). simpl in Hin'.
    apply in_map_iff in Hin'. destruct Hin' as (name & <- & Hname).
    apply filter_In in Hname. destruct Hname as [Hname Hdoc].
    unfold is_document in Hdoc. apply andb_true_iff in Hdoc.
    destruct Hdoc as [H1 H2]. apply negb_true_iff in H1, H2.
    exists root, names, name. auto.
Qed.

(** A cold run over a folder with one document and one markdown file. *)
Lemma classify_asks_new_documents_witness :
  tw_uploads
    (c_world (classify_documents (ext := traced_external scripted_external) []
                {| tw_world := passport_world; tw_uploads := []; tw_asked := [] |}
                None [("docs", ["invoice.pdf"; "notes.md"; ".cache"])]))
  = ["docs/invoice.pdf"].
Proof.
  apply (proj1 (proj2 (proj2 (proj2
           (classify_asks_new_documents scripted scripted_external []
              passport_world None
              [("docs", ["invoice.pdf"; "notes.md"; ".cache"])]))))).
  - repeat constructor. intros [].
  - intros f _. reflexivity.
Defined.

(** X19. After [classify_documents] every document of the folder has a
    record in the store, and the record of a document that was not in the
    loaded cache is never an empty dictionary: it is what the oracle
    answered, or the [failed] record when the oracle gave nothing. *)
Theorem classify_covers_folder :
  forall (World : Type) (ext : External World) (cache : dict string)
         (w : World) (stored : option (dict doc_info))
         (walk : list (string * list string)) (f : string),
    In f (all_files_of walk) ->
    let st := classify_documents cache w stored walk in
    let known := match stored with Some r => r | None => [] end in
    exists info,
      dict_get (c_results st) f = Some info
      /\ (dict_has known f = false -> info_truthy info = true).
Proof.
  intros World ext cache w stored walk f Hin st known.
  pose proof (classify_covers cache w stored walk) as Hall.
  rewrite forallb_forall in Hall. specialize (Hall f Hin).
  apply dict_has_get in Hall. destruct Hall as [info Hget].
  exists info. split; [exact Hget|]. intros Hnew.
  subst st. unfold classify_documents in Hget.
  refine (classify_fold_truthy known _ _ _ f info Hnew Hget).
  simpl. intros k i Hk Hg.
  assert (Hhas : dict_has known k = true) by (apply dict_has_get; now exists i).
  congruence.
Qed.

Lemma classify_covers_folder_witness :
  exists info,
    dict_get
      (c_results (classify_documents [] passport_world None
                    [("docs", ["invoice.pdf"; "notes.md"])]))
      "docs/invoice.pdf"
    = Some info
    /\ info_truthy info = true.
Proof.
  destruct (classify_covers_folder scripted scripted_external [] passport_world
              None [("docs", ["invoice.pdf"; "notes.md"])] "docs/invoice.pdf")
    as (info & Hget & Ht).
  - left. reflexivity.
  - exists info. split; [exact Hget | now apply Ht].
Defined.

(** ** The filter and the builder together *)

(** X20. The filter and the builder agree: for an endpoint that
    [_needs_file_upload] accepts and a readable document, the request is
    built and carries the document, as the data of a raw upload (no body
    at all when the document is empty) or as a file part of the form, with
    the base name of the document as file name. *)
Theorem upload_endpoint_carries_document :
  forall (World : Type) (ext : External World) (env_vars : dict string)
         (w : World) (api : node) (file_path c : string),
    _needs_file_upload api = true ->
    read_file w file_path = Ok c ->
    exists m u h b,
      _build_request env_vars w api file_path = Ok (m, u, h, b)
      /\ (payload_of b = match c with
                         | EmptyString => NoBody
                         | String _ _ => WithData c
                         end
          \/ exists parts key,
              payload_of b = WithFiles parts
              /\ In (FilePart key (Py.basename file_path) c
                              (mime_type_of file_path)) parts).
Proof.
  intros World ext env w api file c Hn Hr.
  apply needs_file_upload_spec in Hn. destruct Hn as (rd & Hreq & Hw).
  unfold _build_request. rewrite Hreq.
  assert (Hcases : mode_is_raw (b_mode (body_of rd)) = true
                   \/ (mode_is_formdata (b_mode (body_of rd)) = true
                       /\ exists f, In f (formdata_of (body_of rd))
                                    /\ field_is_file f = true)).
  { destruct Hw as [H | [H | (H & f & Hin & Hf)]].
    - left. apply mode_is_raw_spec. now left.
    - left. apply mode_is_raw_spec. now right.
    - right. split; [now apply mode_is_formdata_spec|].
      exists f. split; [exact Hin | now apply field_is_file_spec]. }
  destruct Hcases as [Hraw | (Hfd & f & Hin & Hf)].
  - rewrite (raw_not_formdata _ Hraw), Hraw, Hr.
    eexists _, _, _, _. split; [reflexivity|]. left.
    destruct c; reflexivity.
  - rewrite Hfd, (build_fields_parts env w file c _ Hr).
    eexists _, _, _, _. split; [reflexivity|]. right.
    exists (map (part_of env file c) (formdata_of (body_of rd))), (f_key f).
    assert (Hpart : In (FilePart (f_key f) (Py.basename file) c
                                 (mime_type_of file))
                       (map (part_of env file c) (formdata_of (body_of rd)))).
    { apply in_map_iff. exists f. split; [| exact Hin].
      unfold part_of. now rewrite Hf. }
    split; [| exact Hpart].
    unfold payload_of. simpl.
    destruct (map (part_of env file c) (formdata_of (body_of rd)));
      [destruct Hpart | reflexivity].
Qed.

Lemma upload_endpoint_carries_document_witness :
  exists m u h b,
    _build_request demo_env passport_world endpoint_b "docs/passport_scan.png"
    = Ok (m, u, h, b)
    /\ payload_of b
       = WithFiles [FilePart (Some "file") "passport_scan.png" "PNG" "image/png"].
Proof.
  destruct (upload_endpoint_carries_document scripted scripted_external
              demo_env passport_world endpoint_b "docs/passport_scan.png" "PNG"
              eq_refl eq_refl)
    as (m & u & h & b & Hb & _).
  exists m, u, h, b. split; [exact Hb|].
  injection Hb as _ _ _ <-. reflexivity.
Defined.

(** ** A classification that fails *)

(** X23. What [classify_documents] stores for a new document.  When
    the upload raises, when the prompt file cannot be read and when the
    classification request raises, the document gets the record
    [{document_type: failed, confidence: 0.0}], nothing leaves the
    function as an exception, and the later steps are not made (the world
    is the one the failing step left).  When the request answers, the
    record is the failed one if the answer has no block in braces, if the
    block is no JSON text or if it denotes the empty object, and is the
    object the oracle answered in every other case, whatever its
    members. *)
Theorem failed_classification_recorded :
  forall (World : Type) (ext : External World) (st : classify_state)
         (file_path : string),
    let st' := classify_step st file_path in
    let stored := dict_get (c_results st') file_path in
    (forall e w1,
        dict_get (c_cache st) file_path = None ->
        upload_file (c_world st) file_path = (Raised e, w1) ->
        stored = Some failed_info
        /\ c_world st' = w1 /\ c_cache st' = c_cache st)
    /\ (forall file_obj cache1 w1,
           _upload_file (c_cache st) (c_world st) file_path
           = (Ok file_obj, cache1, w1) ->
           (forall e,
               read_file w1 "prompts/classify_document.md" = Raised e ->
               stored = Some failed_info /\ c_world st' = w1)
           /\ (forall instructions,
                  read_file w1 "prompts/classify_document.md" = Ok instructions ->
                  (forall e w2,
                      classify_content w1 instructions file_obj = (Raised e, w2) ->
                      stored = Some failed_info /\ c_world st' = w2)
                  /\ (forall text w2,
                         classify_content w1 instructions file_obj = (Ok text, w2) ->
                         c_world st' = w2
                         /\ stored
                            = Some match json_span (Py.strip text) with
                                   | None => failed_info
                                   | Some block =>
                                       match json_loads_info block with
                                       | None => failed_info
                                       | Some answer =>
                                           if info_truthy answer then answer
                                           else failed_info
                                       end
                                   end))).
Proof.
  intros World ext st f st' stored. subst stored st'.
  unfold classify_step, _ask_gemini_to_classify. split.
  - intros e w1 Hc Hu. unfold _upload_file. rewrite Hc, Hu. cbn.
    now rewrite dict_get_set, String.eqb_refl.
  - intros obj cache1 w1 Hu. rewrite Hu. split.
    + intros e Hr. rewrite Hr. cbn.
      now rewrite dict_get_set, String.eqb_refl.
    + intros instr Hr. rewrite Hr. split.
      * intros e w2 Hq. rewrite Hq. cbn.
        now rewrite dict_get_set, String.eqb_refl.
      * intros text w2 Hq. rewrite Hq.
        destruct (json_span (Py.strip text)) as [block|]; cbn;
          rewrite dict_get_set, String.eqb_refl; [| now split].
        split; [reflexivity|].
        destruct (json_loads_info block); reflexivity.
Qed.

(** In the scripted world the prompt file is not there. *)
Lemma failed_classification_recorded_witness :
  dict_get
    (c_results (classify_documents [] passport_world None
                  [("docs", ["invoice.pdf"])]))
    "docs/invoice.pdf"
  = Some failed_info.
Proof.
  exact (proj1 (proj1 (proj2
           (failed_classification_recorded scripted scripted_external
              {| c_results := []; c_cache := []; c_world := passport_world;
                 c_asked := [] |}
              "docs/invoice.pdf")
           "docs/invoice.pdf" [("docs/invoice.pdf", "docs/invoice.pdf")]
           passport_world eq_refl)
           "No such file or directory" eq_refl)).
Defined.
